(** * Booking core of the fitness-club bot (Main.go)

    A shallow embedding of the data model, the booking transaction
    [bookSlot], the load/save lifecycle and the callback handler of
    [main], followed by the properties of the specification.

    Conventions of the embedding.
    - Go's [int] and [int64] are modelled as [Z]; [int] is taken to be
      64 bits wide.  The program does no arithmetic on identifiers; the
      only counter ([userCountWithThisTrainer]) is bounded by the length
      of the booking slice, so no wrap-around can be observed.
    - Go strings are byte strings: [string] of the Standard Library, one
      [ascii] per byte (the Cyrillic literals are their UTF-8 bytes).
    - A slice is a [list]; a nil slice and an empty slice are identified
      (the program only takes [len], ranges over and appends to slices).
      Every slice of the state owns its backing array ([defaultSlots]
      allocates one per call and the JSON decoder one per slice), so the
      in-place [append(slots[:pos], slots[pos+1:]...)] is observable only
      through the trainer it is stored back into.
    - [map[int64]*User] is a [gmap Z User.t]; the pointer returned by
      [getOrCreateUser] is the key, and a read through it is a lookup in
      the current state.
    - The update loop of [main] handles one update at a time, so the
      functions guarded by [stateMu] run one after the other and the
      mutex does not appear. *)

From Stdlib Require Import ZArith String Ascii DecimalString DecimalPos DecimalZ.
From stdpp Require Import gmap strings list fin_maps sorting.

Open Scope string_scope.
Open Scope list_scope.
Open Scope Z_scope.

(** ** Data model *)

Module Trainer.
Record t := mk {
  ID : Z;
  Name : string;
  Bio : string;
  Achievements : list string;
  Slots : list string
}.

(** [t.Slots = slots] on a trainer record. *)
Definition with_Slots (tr : t) (slots : list string) : t :=
  mk (ID tr) (Name tr) (Bio tr) (Achievements tr) slots.
End Trainer.

Module Booking.
Record t := mk {
  UserID : Z;
  Trainer : Z;
  TimeSlot : string;
  BookedAt : Z
}.
End Booking.

Module User.
Record t := mk {
  ID : Z;
  Name : string;
  HasPaid : bool
}.
End User.

Module AppState.
Record t := mk {
  Users : gmap Z User.t;
  Trainers : list Trainer.t;
  Bookings : list Booking.t
}.
End AppState.

(** ** Seed catalogue *)

Definition defaultSlots : list string :=
  ["08:00"; "09:00"; "10:00"; "11:00"; "12:00"; "13:00"; "14:00";
   "15:00"; "16:00"; "17:00"; "18:00"; "19:00"; "20:00"].

Definition defaultTrainers : list Trainer.t :=
  [ Trainer.mk 1 "Айдос Нуртаев" "Силовой тренинг, функциональная подготовка."
      ["МС по пауэрлифтингу"; "Победитель Almaty Open 2022"] defaultSlots;
    Trainer.mk 2 "Алия Жаксылыкова" "Фитнес для женщин, послеродовое восстановление."
      ["Сертифицированный персональный тренер NASM"] defaultSlots;
    Trainer.mk 3 "Расул Абдрахман" "Бокс, ОФП, выносливость."
      ["Чемпион РК среди юниоров по боксу"] defaultSlots;
    Trainer.mk 4 "Динара Есмухан" "Йога, гибкость, дыхательные практики."
      ["RYT-500 Yoga Alliance"] defaultSlots;
    Trainer.mk 5 "Мади Бекен" "Кроссфит, снижение веса."
      ["Сертифицированный тренер CrossFit L1"] defaultSlots ].

(** The state built by [loadState] when [state.json] does not exist. *)
Definition freshState : AppState.t :=
  AppState.mk ∅ defaultTrainers [].

(** ** Directory lookups *)

(** [getOrCreateUser]: the map after the call and the record the returned
    pointer designates. *)
Definition getOrCreateUser (id : Z) (name : string) (s : AppState.t)
  : User.t * AppState.t :=
  match AppState.Users s !! id with
  | Some u => (u, s)
  | None =>
      let u := User.mk id name false in
      (u, AppState.mk (<[id := u]> (AppState.Users s))
                      (AppState.Trainers s) (AppState.Bookings s))
  end.

(** The loop [for i := range state.Trainers] that stops at the first
    trainer whose ID is [id]; [i] is the index of the head of [ts].
    [None] stands for the sentinel index -1. *)
Fixpoint trainerIndexFrom (i : nat) (id : Z) (ts : list Trainer.t)
  : option (nat * Trainer.t) :=
  match ts with
  | [] => None
  | tr :: ts' =>
      if Trainer.ID tr =? id then Some (i, tr)
      else trainerIndexFrom (S i) id ts'
  end.

(** [getTrainerByID]: the trainer pointed to and its index, [None] for
    [(nil, -1)]. *)
Definition getTrainerByID (id : Z) (s : AppState.t) : option (nat * Trainer.t) :=
  trainerIndexFrom 0 id (AppState.Trainers s).

(** ** Booking transaction *)

(** The four [fmt.Errorf] values of [bookSlot], in the order of their
    [return] statements. *)
Inductive BookError :=
| DifferentTrainerError
| LimitExceededError
| TrainerNotFoundError
| SlotUnavailableError.

Definition BookError_text (e : BookError) : string :=
  match e with
  | DifferentTrainerError =>
      "вы уже записаны к другому тренеру. Можно записываться только к одному тренеру."
  | LimitExceededError => "лимит: максимум 3 записи у одного тренера."
  | TrainerNotFoundError => "тренер не найден"
  | SlotUnavailableError => "слот уже занят или не существует"
  end.

(** The scan over [state.Bookings] (first loop of [bookSlot]).
    [existingTrainer] and [count] are the two loop variables; [None] is
    the early [return] of the different-trainer error, [Some count] the
    value of [userCountWithThisTrainer] when the loop runs to its end. *)
Fixpoint scanBookings (userID trainerID : Z) (bs : list Booking.t)
    (existingTrainer count : Z) : option Z :=
  match bs with
  | [] => Some count
  | b :: bs' =>
      if negb (Booking.UserID b =? userID) then
        scanBookings userID trainerID bs' existingTrainer count
      else
        let existingTrainer :=
          if existingTrainer =? 0 then Booking.Trainer b else existingTrainer in
        if Booking.Trainer b =? trainerID then
          scanBookings userID trainerID bs' existingTrainer (count + 1)
        else if negb (trainerID =? existingTrainer) then None
        else scanBookings userID trainerID bs' existingTrainer count
  end.

(** The loop [for i, s := range Slots] that stops at the first label
    equal to [slot]; [None] stands for [pos == -1]. *)
Fixpoint slotIndexFrom (i : nat) (slot : string) (slots : list string) : option nat :=
  match slots with
  | [] => None
  | s :: slots' =>
      if String.eqb s slot then Some i else slotIndexFrom (S i) slot slots'
  end.

(** [append(slots[:pos], slots[pos+1:]...)]. *)
Definition removeAt (pos : nat) (slots : list string) : list string :=
  take pos slots ++ drop (S pos) slots.

(** [bookSlot]: the error returned ([None] for [nil]) and the state the
    call leaves.  [now] is the value of [time.Now().Unix()]. *)
Definition bookSlot (now userID trainerID : Z) (slot : string) (s : AppState.t)
  : option BookError * AppState.t :=
  match scanBookings userID trainerID (AppState.Bookings s) 0 0 with
  | None => (Some DifferentTrainerError, s)
  | Some userCountWithThisTrainer =>
      if 3 <=? userCountWithThisTrainer then (Some LimitExceededError, s)
      else
        match trainerIndexFrom 0 trainerID (AppState.Trainers s) with
        | None => (Some TrainerNotFoundError, s)
        | Some (idx, tr) =>
            match slotIndexFrom 0 slot (Trainer.Slots tr) with
            | None => (Some SlotUnavailableError, s)
            | Some pos =>
                let slots := Trainer.Slots tr in
                let trainers :=
                  <[idx := Trainer.with_Slots tr (removeAt pos slots)]>
                    (AppState.Trainers s) in
                let bookings :=
                  AppState.Bookings s ++
                    [Booking.mk userID trainerID slot now] in
                (None, AppState.mk (AppState.Users s) trainers bookings)
            end
        end
  end.

(** The assignment [state.Users[userID].HasPaid = true] of the [pay_]
    branch; [None] is the nil dereference of an absent entry. *)
Definition grantPayment (userID : Z) (s : AppState.t) : option AppState.t :=
  match AppState.Users s !! userID with
  | Some u =>
      Some (AppState.mk
              (<[userID := User.mk (User.ID u) (User.Name u) true]> (AppState.Users s))
              (AppState.Trainers s) (AppState.Bookings s))
  | None => None
  end.


(** ** The persisted record

    [saveState] and [loadState] go through [encoding/json] and the file
    [state.json].  The library is modelled at the level of the JSON
    document a text denotes: [json.MarshalIndent] builds the document
    fixed by the struct tags of the source, [Decoder.Decode] reads the
    first document of the file into a zero [AppState].  Indentation and
    string escaping belong to the text and are not represented; strings
    are taken to be valid UTF-8, as the literals of the source and the
    names delivered by the Telegram client are (the encoder would
    replace other bytes). *)

#[local] Set Warnings "-register-all".
Inductive json :=
| JNull
| JBool (b : bool)
| JNum (n : Z)            (* an integer literal *)
| JFrac                   (* any other number literal *)
| JStr (s : string)
| JArr (items : list json)
| JObj (fields : list (string * json)).

(** [%d] of [fmt.Sprintf] and the text of an integer map key. *)
Definition fmt_d (n : Z) : string := NilZero.string_of_int (Z.to_int n).

(** The range of [int64], and of [int] on a 64-bit platform. *)
Definition in_int64 (n : Z) : bool := (- 2 ^ 63 <=? n) && (n <? 2 ^ 63).

(** [strconv.ParseInt(key, 10, 64)] on decimal digits with an optional
    minus sign. *)
Definition parse_int64 (s : string) : option Z :=
  match NilZero.int_of_string s with
  | Some d => if in_int64 (Z.of_int d) then Some (Z.of_int d) else None
  | None => None
  end.

Module Encode.
Definition strings (l : list string) : json := JArr (JStr <$> l).

Definition user (u : User.t) : json :=
  JObj [("id", JNum (User.ID u));
        ("name", JStr (User.Name u));
        ("has_paid", JBool (User.HasPaid u))].

Definition trainer (tr : Trainer.t) : json :=
  JObj [("id", JNum (Trainer.ID tr));
        ("name", JStr (Trainer.Name tr));
        ("bio", JStr (Trainer.Bio tr));
        ("achievements", strings (Trainer.Achievements tr));
        ("slots", strings (Trainer.Slots tr))].

Definition booking (b : Booking.t) : json :=
  JObj [("user_id", JNum (Booking.UserID b));
        ("trainer", JNum (Booking.Trainer b));
        ("time_slot", JStr (Booking.TimeSlot b));
        ("booked_at", JNum (Booking.BookedAt b))].

(** The encoder writes the entries of a map sorted by the text of
    their keys. *)
Definition key_le (p q : string * json) : Prop := String.leb p.1 q.1 = true.

#[global] Instance key_le_dec : RelDecision key_le.
Proof. intros p q. unfold key_le. apply _. Defined.

Definition users (m : gmap Z User.t) : json :=
  JObj (merge_sort key_le
          ((λ kv : Z * User.t, (fmt_d kv.1, user kv.2)) <$> map_to_list m)).

Definition appState (s : AppState.t) : json :=
  JObj [("users", users (AppState.Users s));
        ("trainers", JArr (trainer <$> AppState.Trainers s));
        ("bookings", JArr (booking <$> AppState.Bookings s))].
End Encode.

Module Decode.
(** The value of the last member named [k].  (The library also takes
    a member whose name differs from the tag in letter case; only
    exact names are modelled.) *)
Definition field (k : string) (fs : list (string * json)) : option json :=
  snd <$> List.find (λ p, String.eqb p.1 k) (rev fs).

(** A member that is absent or [null] leaves the zero value of the
    field; a value of another JSON type is an error ([None]). *)
Definition int (o : option json) : option Z :=
  match o with
  | None | Some JNull => Some 0
  | Some (JNum n) => if in_int64 n then Some n else None
  | Some _ => None
  end.

Definition str (o : option json) : option string :=
  match o with
  | None | Some JNull => Some ""
  | Some (JStr s) => Some s
  | Some _ => None
  end.

Definition boolean (o : option json) : option bool :=
  match o with
  | None | Some JNull => Some false
  | Some (JBool b) => Some b
  | Some _ => None
  end.

Definition strings (o : option json) : option (list string) :=
  match o with
  | None | Some JNull => Some []
  | Some (JArr items) => mapM (λ j, str (Some j)) items
  | Some _ => None
  end.

Definition trainer (j : json) : option Trainer.t :=
  match j with
  | JNull => Some (Trainer.mk 0 "" "" [] [])
  | JObj fs =>
      id ← int (field "id" fs);
      name ← str (field "name" fs);
      bio ← str (field "bio" fs);
      achievements ← strings (field "achievements" fs);
      slots ← strings (field "slots" fs);
      Some (Trainer.mk id name bio achievements slots)
  | _ => None
  end.

Definition booking (j : json) : option Booking.t :=
  match j with
  | JNull => Some (Booking.mk 0 0 "" 0)
  | JObj fs =>
      user_id ← int (field "user_id" fs);
      tr ← int (field "trainer" fs);
      time_slot ← str (field "time_slot" fs);
      booked_at ← int (field "booked_at" fs);
      Some (Booking.mk user_id tr time_slot booked_at)
  | _ => None
  end.

(** An entry of the user map.  A [null] entry would store a nil
    [*User], which [gmap Z User.t] cannot hold: such a document is
    outside the model and is refused. *)
Definition user (j : json) : option User.t :=
  match j with
  | JObj fs =>
      id ← int (field "id" fs);
      name ← str (field "name" fs);
      has_paid ← boolean (field "has_paid" fs);
      Some (User.mk id name has_paid)
  | _ => None
  end.

Definition user_entry (kv : string * json) : option (Z * User.t) :=
  k ← parse_int64 kv.1;
  u ← user kv.2;
  Some (k, u).

(** The map is filled member by member, a later member replacing an
    earlier one with the same key.  The outer [None] is an error, the
    inner one the nil map. *)
Definition users (o : option json) : option (option (gmap Z User.t)) :=
  match o with
  | None | Some JNull => Some None
  | Some (JObj fs) =>
      entries ← mapM user_entry fs;
      Some (Some (foldl (λ m (kv : Z * User.t), <[kv.1 := kv.2]> m) ∅ entries))
  | Some _ => None
  end.

Definition trainers (o : option json) : option (list Trainer.t) :=
  match o with
  | None | Some JNull => Some []
  | Some (JArr items) => mapM trainer items
  | Some _ => None
  end.

Definition bookings (o : option json) : option (list Booking.t) :=
  match o with
  | None | Some JNull => Some []
  | Some (JArr items) => mapM booking items
  | Some _ => None
  end.

(** The variable [tmp] of [loadState] after [dec.Decode(&tmp)]: its
    user map may still be nil. *)
Record tmp := mkTmp {
  Users : option (gmap Z User.t);
  Trainers : list Trainer.t;
  Bookings : list Booking.t
}.

Definition appState (j : json) : option tmp :=
  match j with
  | JNull => Some (mkTmp None [] [])
  | JObj fs =>
      us ← users (field "users" fs);
      ts ← trainers (field "trainers" fs);
      bs ← bookings (field "bookings" fs);
      Some (mkTmp us ts bs)
  | _ => None
  end.
End Decode.

(** ** The world around the state: file, log and transport *)

(** What [os.Open(statePath)] and the decoder find. *)
Inductive File :=
| Absent                  (* [os.ErrNotExist] *)
| Unreadable              (* [os.Open] fails with another error *)
| Malformed               (* the content is not a JSON document *)
| Doc (j : json).

Inductive IOError := OpenError | DecodeError | WriteError.

Record Button := mkButton { label : string; callback_data : string }.

Inductive Markup :=
| NoMarkup
| ReplyKeyboard (rows : list (list string))
| InlineKeyboard (rows : list (list Button)).

(** A request handed to the bot API. *)
Inductive Outgoing :=
| Message (chat : Z) (text : string) (markup : Markup)
| CallbackAnswer (id : string) (text : string).

Record World := mkWorld {
  state : AppState.t;
  file : File;
  logs : list string;       (* lines written by [log.Printf] *)
  outbox : list Outgoing    (* requests handed to the bot API, oldest first *)
}.

(** What the program does not decide: the outcome of [os.WriteFile],
    what a failed write leaves on disk, the outcome of the n-th request
    to the bot API, and the integer [fmt.Sscanf(s, "%d", &id)] leaves in
    a variable that was zero. *)
Record Env := mkEnv {
  write_fails : bool;
  file_after_failed_write : File;
  send_error : nat → option string;
  Sscanf_d : string → Z
}.

Definition set_state (s : AppState.t) (w : World) : World :=
  mkWorld s (file w) (logs w) (outbox w).

(** [saveState]: [json.MarshalIndent] cannot fail on [AppState], so the
    only error is that of [os.WriteFile]. *)
Definition saveState (env : Env) (w : World) : option IOError * World :=
  let b := Encode.appState (state w) in
  if write_fails env then
    (Some WriteError,
     mkWorld (state w) (file_after_failed_write env) (logs w) (outbox w))
  else (None, mkWorld (state w) (Doc b) (logs w) (outbox w)).

Definition loadState (env : Env) (w : World) : option IOError * World :=
  match file w with
  | Absent => saveState env (set_state freshState w)
  | Unreadable => (Some OpenError, w)
  | Malformed => (Some DecodeError, w)
  | Doc j =>
      match Decode.appState j with
      | None => (Some DecodeError, w)
      | Some tmp =>
          let trainers :=
            if (length (Decode.Trainers tmp) =? 0)%nat then defaultTrainers
            else Decode.Trainers tmp in
          let users :=
            match Decode.Users tmp with
            | None => ∅
            | Some m => m
            end in
          (None, set_state (AppState.mk users trainers (Decode.Bookings tmp)) w)
      end
  end.

(** ** Keyboards *)

Definition nl : string := String "010"%char "".
Definition dq : string := String "034"%char "".

Definition gymName : string := "Alfa Fitness".

Definition mainMenuKeyboard : Markup :=
  ReplyKeyboard [["Тренеры"; "Прайс абонементов"]].

Definition trainersInlineKeyboard (hasPaid : bool) (s : AppState.t) : Markup :=
  let row (t : Trainer.t) :=
    [mkButton ("👤 " +:+ Trainer.Name t) ("trainer_" +:+ fmt_d (Trainer.ID t))]
    ++ (if hasPaid
        then [mkButton "🗓 Запись" ("book_" +:+ fmt_d (Trainer.ID t))]
        else []) in
  InlineKeyboard ((row <$> AppState.Trainers s) ++ [[mkButton "⬅️ В меню" "menu"]]).

Definition trainerDetailsKeyboard (t : Trainer.t) (hasPaid : bool) : Markup :=
  InlineKeyboard
    [(if hasPaid
      then [mkButton "🗓 Запись" ("book_" +:+ fmt_d (Trainer.ID t))]
      else [])
     ++ [mkButton "⬅️ Назад" "trainers"]].

(** The first statement of [scheduleKeyboard]: the copy of
    [state.Trainers[trainerID-1].Slots].  [None] is the run-time panic
    of an index out of range (a negative index included). *)
Definition scheduleSlots (trainerID : Z) (s : AppState.t) : option (list string) :=
  if trainerID - 1 <? 0 then None
  else Trainer.Slots <$> (AppState.Trainers s !! Z.to_nat (trainerID - 1)).

(** The loop of [scheduleKeyboard] that lays the buttons out four to a
    row; [i] is the index of the head of [slots]. *)
Fixpoint scheduleRows (trainerID : Z) (i : nat) (slots : list string)
    (row : list Button) (rows : list (list Button))
  : list (list Button) * list Button :=
  match slots with
  | [] => (rows, row)
  | s :: slots' =>
      let row := row ++ [mkButton s ("slot_" +:+ fmt_d trainerID +:+ "_" +:+ s)] in
      if ((i + 1) mod 4 =? 0)%nat
      then scheduleRows trainerID (S i) slots' [] (rows ++ [row])
      else scheduleRows trainerID (S i) slots' row rows
  end.

Definition scheduleKeyboard (trainerID : Z) (s : AppState.t) : option Markup :=
  slots ← scheduleSlots trainerID s;
  let '(rows, row) := scheduleRows trainerID 0 slots [] [] in
  let rows := if (0 <? length row)%nat then rows ++ [row] else rows in
  Some (InlineKeyboard (rows ++ [[mkButton "⬅️ Назад" "trainers"]])).

Definition pricingKeyboard : Markup :=
  InlineKeyboard
    [[mkButton "Оплатить Gold (25 000 ₸)" "pay_gold"];
     [mkButton "Оплатить Silver (18 000 ₸)" "pay_silver"];
     [mkButton "Оплатить Bronze (12 000 ₸)" "pay_bronze"];
     [mkButton "Оплатить Студенческий (9 000 ₸)" "pay_student"];
     [mkButton "⬅️ В меню" "menu"]].

(** ** String helpers of the handler *)

(** [strings.HasPrefix(s, p)]. *)
Definition HasPrefix (s p : string) : bool := String.prefix p s.

(** [strings.TrimPrefix(s, p)]. *)
Definition TrimPrefix (s p : string) : string :=
  if HasPrefix s p
  then String.substring (String.length p) (String.length s - String.length p) s
  else s.

(** The text before and after the first underscore, if there is one. *)
Fixpoint cut_underscore (s : string) : option (string * string) :=
  match s with
  | EmptyString => None
  | String c s' =>
      if Ascii.eqb c "_"%char then Some (EmptyString, s')
      else match cut_underscore s' with
           | Some (a, b) => Some (String c a, b)
           | None => None
           end
  end.

(** [strings.SplitN(s, "_", 2)]. *)
Definition SplitN2 (s : string) : list string :=
  match cut_underscore s with
  | Some (a, b) => [a; b]
  | None => [s]
  end.

(** [strings.Join(l, sep)]. *)
Definition Join (l : list string) (sep : string) : string := String.concat sep l.

(** ** The callback handler of [main] *)

(** A handler step either completes with a result or panics; both leave
    a world behind. *)
Inductive Res (A : Type) :=
| Done (a : A) (w : World)
| Panic (w : World).
Arguments Done {A} a w.
Arguments Panic {A} w.

Definition M (A : Type) : Type := World → Res A.

#[global] Instance M_ret : MRet M := λ A a w, Done a w.
#[global] Instance M_bind : MBind M := λ A B f m w,
  match m w with
  | Done a w' => f a w'
  | Panic w' => Panic w'
  end.

Definition panic {A} : M A := λ w, Panic w.

(** Run a function of the state under the lock. *)
Definition locked {A} (f : AppState.t → A * AppState.t) : M A :=
  λ w, let '(a, s) := f (state w) in Done a (set_state s w).

Definition read {A} (f : AppState.t → A) : M A :=
  λ w, Done (f (state w)) w.

(** Dereference: a nil pointer panics. *)
Definition deref {A} (o : option A) : M A :=
  match o with
  | Some a => mret a
  | None => panic
  end.

(** [send]: the request goes out; a failure is logged. *)
Definition send (env : Env) (msg : Outgoing) : M unit :=
  λ w,
    let log :=
      match send_error env (length (outbox w)) with
      | Some err => ["send error: " +:+ err]
      | None => []
      end in
    Done () (mkWorld (state w) (file w) (logs w ++ log) (outbox w ++ [msg])).

(** [answerCallback]: the request goes out; its error is returned to
    the caller, which drops it. *)
Definition answerCallback (id text : string) : M unit :=
  λ w, Done () (mkWorld (state w) (file w) (logs w) (outbox w ++ [CallbackAnswer id text])).

(** [_ = saveState()]. *)
Definition saveState_ (env : Env) : M unit :=
  λ w, Done () (saveState env w).2.

Record CallbackQuery := mkCallbackQuery {
  cq_ID : string;
  From_ID : Z;
  From_FirstName : string;
  Message_Chat_ID : Z;        (* [cq.Message.Chat.ID]; [cq.Message] is not nil *)
  Data : string
}.

(** A read through the pointer [user], which [getOrCreateUser] returned
    for [userID]: the entry [state.Users[userID]] as it is now. *)
Definition user_ptr (userID : Z) : M User.t :=
  o ← read (λ s, AppState.Users s !! userID); deref o.

(** The tests on [cq.Data], in the order of the source; each branch
    ends in [continue]. *)
Inductive Route := RMenu | RTrainers | RTrainer | RBook | RSlot | RPay | RNone.

Definition route (data : string) : Route :=
  if String.eqb data "menu" then RMenu
  else if String.eqb data "trainers" then RTrainers
  else if HasPrefix data "trainer_" then RTrainer
  else if HasPrefix data "book_" then RBook
  else if HasPrefix data "slot_" then RSlot
  else if HasPrefix data "pay_" then RPay
  else RNone.

Section Branches.
Variable env : Env.
Variable now : Z.               (* the clock reading [bookSlot] takes *)
Variable cq : CallbackQuery.

Let userID := From_ID cq.
Let chat := Message_Chat_ID cq.
Let data := Data cq.

Definition onMenu : M unit :=
  send env (Message chat ("Вас приветствует фитнес зал " +:+ gymName +:+ "!")
                    mainMenuKeyboard).

Definition onTrainers : M unit :=
  u ← user_ptr userID;
  kb ← read (trainersInlineKeyboard (User.HasPaid u));
  send env (Message chat "Наши тренеры (нажмите имя, чтобы узнать подробнее):" kb).

Definition onTrainer : M unit :=
  let id := Sscanf_d env (TrimPrefix data "trainer_") in
  tr ← read (getTrainerByID id);
  match tr with
  | None => send env (Message chat "Тренер не найден" NoMarkup)
  | Some (_, tr) =>
      let text :=
        Trainer.Name tr +:+ nl +:+ nl +:+ "Описание: " +:+ Trainer.Bio tr
        +:+ nl +:+ nl +:+ "Достижения:" +:+ nl +:+ "• "
        +:+ Join (Trainer.Achievements tr) (nl +:+ "• ") in
      u ← user_ptr userID;
      send env (Message chat text (trainerDetailsKeyboard tr (User.HasPaid u)))
  end.

Definition onBook : M unit :=
  u ← user_ptr userID;
  if negb (User.HasPaid u) then
    send env (Message chat
                ("Чтобы записаться, сначала оплатите абонемент в разделе "
                 +:+ dq +:+ "Прайс абонементов" +:+ dq +:+ ".") NoMarkup)
  else
    let id := Sscanf_d env (TrimPrefix data "book_") in
    tr ← read (getTrainerByID id);
    match tr with
    | None => send env (Message chat "Тренер не найден" NoMarkup)
    | Some (_, tr) =>
        let text := "Выберите время для тренера " +:+ Trainer.Name tr +:+ ":" in
        kb ← read (scheduleKeyboard (Trainer.ID tr));
        kb ← deref kb;
        send env (Message chat text kb)
    end.

(** After [bookSlot] returned nil: flush, confirm, and show the
    trainer's remaining slots. *)
Definition confirmBooking (trainerID : Z) (slot : string) : M unit :=
  saveState_ env;;
  let confirm :=
    "Запись подтверждена! Тренер #" +:+ fmt_d trainerID
    +:+ ", время " +:+ slot +:+ "." in
  send env (Message chat confirm NoMarkup);;
  tr ← read (getTrainerByID trainerID);
  tr ← deref tr;
  let text := "Свободные слоты у " +:+ Trainer.Name tr.2 +:+ " обновлены:" in
  kb ← read (scheduleKeyboard (Trainer.ID tr.2));
  kb ← deref kb;
  send env (Message chat text kb).

Definition onSlot : M unit :=
  match SplitN2 (TrimPrefix data "slot_") with
  | [part0; part1] =>
      let trainerID := Sscanf_d env part0 in
      let slot := part1 in
      u ← user_ptr userID;
      if negb (User.HasPaid u) then
        send env (Message chat "Сначала оплатите абонемент." NoMarkup)
      else
        err ← locked (bookSlot now userID trainerID slot);
        match err with
        | Some e =>
            send env (Message chat ("Не удалось записаться: " +:+ BookError_text e)
                              NoMarkup)
        | None => confirmBooking trainerID slot
        end
  | _ => mret ()
  end.

Definition onPay : M unit :=
  s ← read (grantPayment userID);
  s ← deref s;
  locked (λ _, ((), s));;
  saveState_ env;;
  send env (Message chat "Операция прошла успешно!" NoMarkup);;
  kb ← read (trainersInlineKeyboard true);
  send env (Message chat
              ("Теперь вы можете записаться к тренеру в разделе "
               +:+ dq +:+ "Тренеры" +:+ dq +:+ ":") kb).

(** The body of [if update.CallbackQuery != nil] in the update loop. *)
Definition handleCallback : M unit :=
  _ ← locked (getOrCreateUser userID (From_FirstName cq));
  answerCallback (cq_ID cq) "";;
  match route data with
  | RMenu => onMenu
  | RTrainers => onTrainers
  | RTrainer => onTrainer
  | RBook => onBook
  | RSlot => onSlot
  | RPay => onPay
  | RNone => mret ()
  end.
End Branches.

(** The world a handler run leaves behind, completed or not. *)
Definition world_of {A} (r : Res A) : World :=
  match r with
  | Done _ w => w
  | Panic w => w
  end.

(** The world in which a branch starts: the user exists and the
    callback has been answered. *)
Definition entered (cq : CallbackQuery) (w : World) : World :=
  mkWorld (getOrCreateUser (From_ID cq) (From_FirstName cq) (state w)).2
          (file w) (logs w) (outbox w ++ [CallbackAnswer (cq_ID cq) ""]).

(** ** Reachable states and the vocabulary of the properties *)

(** The states the running program goes through: the seeded state of a
    first start, then any interleaving of the three mutations the
    handlers perform.  Identifiers and clock readings are Go integers. *)
Inductive reachable : AppState.t → Prop :=
| reach_fresh :
    reachable freshState
| reach_user id name s :
    in_int64 id = true → reachable s →
    reachable (getOrCreateUser id name s).2
| reach_pay userID s s' :
    reachable s → grantPayment userID s = Some s' →
    reachable s'
| reach_book now userID trainerID slot s :
    in_int64 now = true → in_int64 userID = true → in_int64 trainerID = true →
    reachable s →
    reachable (bookSlot now userID trainerID slot s).2.

(** The bookings that pair a user with a trainer. *)
Definition bookingsOf (userID trainerID : Z) (bs : list Booking.t) : list Booking.t :=
  filter (λ b, Booking.UserID b = userID ∧ Booking.Trainer b = trainerID) bs.

(** All bookings of one user name one trainer. *)
Definition single_trainer (bs : list Booking.t) : Prop :=
  ∀ b1 b2, b1 ∈ bs → b2 ∈ bs →
    Booking.UserID b1 = Booking.UserID b2 → Booking.Trainer b1 = Booking.Trainer b2.

(** The trainer at index [i] (from 0) has ID [i + 1]. *)
Definition positional (ts : list Trainer.t) : Prop :=
  ∀ (i : nat) tr, ts !! i = Some tr → Trainer.ID tr = Z.of_nat i + 1.

(** The label of the full hour [h], as in ["08:00"]. *)
Definition hourly (h : nat) : string :=
  (if (h <? 10)%nat then "0" else "") +:+ fmt_d (Z.of_nat h) +:+ ":00".

(** A trainer record without its slot list. *)
Definition profile (tr : Trainer.t) : Z * string * string * list string :=
  (Trainer.ID tr, Trainer.Name tr, Trainer.Bio tr, Trainer.Achievements tr).

(** A hand-edited record that the decoder accepts: two trainers, with
    IDs 7 and 1 in this order. *)
Definition foreign_record : json :=
  JObj [("trainers",
         JArr [JObj [("id", JNum 7); ("name", JStr "X");
                     ("slots", JArr [JStr "08:00"])];
               JObj [("id", JNum 1); ("name", JStr "Y");
                     ("slots", JArr [JStr "09:00"])]])].

(** An environment in which every write to [state.json] fails and every
    request to the bot API succeeds; [Sscanf_d] reads a plain decimal
    numeral. *)
Definition failing_disk : Env :=
  mkEnv true Absent (λ _, None)
        (λ s, match parse_int64 s with Some n => n | None => 0 end).

Definition working_disk : Env :=
  mkEnv false Absent (λ _, None)
        (λ s, match parse_int64 s with Some n => n | None => 0 end).

(** A booking request: clock reading, user, trainer, slot. *)
Record Request := mkRequest {
  req_now : Z;
  req_user : Z;
  req_trainer : Z;
  req_slot : string
}.

(** The state after a sequence of [bookSlot] calls, whatever each of
    them returns. *)
Definition runBookings (reqs : list Request) (s : AppState.t) : AppState.t :=
  foldl (λ s r, (bookSlot (req_now r) (req_user r) (req_trainer r) (req_slot r) s).2)
        s reqs.

Definition request_ok (r : Request) : bool :=
  in_int64 (req_now r) && in_int64 (req_user r) && in_int64 (req_trainer r).

(** Sample runs from the seeded state: user 7 books trainer 1 once,
    then three times; user 8 books trainer 2 in between. *)
Definition booked_once : AppState.t :=
  runBookings [mkRequest 1700000000 7 1 "08:00"] freshState.

Definition booked_thrice : AppState.t :=
  runBookings [mkRequest 1700000000 7 1 "08:00";
               mkRequest 1700000100 8 2 "08:00";
               mkRequest 1700000200 7 1 "09:00";
               mkRequest 1700000300 7 1 "10:00"] freshState.

(** User 7 on first contact, then after the payment button. *)
Definition member_joined : AppState.t := (getOrCreateUser 7 "Ann" freshState).2.

Definition member_paid : AppState.t :=
  default member_joined (grantPayment 7 member_joined).

(** A world with nothing on disk, and the click of user 7 on the 08:00
    button of trainer 1. *)
Definition world_with (s : AppState.t) : World := mkWorld s Absent [] [].

Definition booking_click : CallbackQuery :=
  mkCallbackQuery "cb1" 7 "Ann" 100 "slot_1_08:00".

(** What the mutations maintain from the seeded state on. *)
Record invariant (s : AppState.t) : Prop := mkInvariant {
  inv_profiles :
    profile <$> AppState.Trainers s = profile <$> defaultTrainers;
  inv_slots :
    Forall (λ tr, Trainer.Slots tr `sublist_of` defaultSlots) (AppState.Trainers s);
  inv_booked :
    ∀ b, b ∈ AppState.Bookings s →
      1 ≤ Booking.Trainer b ≤ 5 ∧
      in_int64 (Booking.UserID b) = true ∧ in_int64 (Booking.BookedAt b) = true;
  inv_exclusive :
    ∀ b tr, b ∈ AppState.Bookings s → tr ∈ AppState.Trainers s →
      Trainer.ID tr = Booking.Trainer b → Booking.TimeSlot b ∉ Trainer.Slots tr;
  inv_single :
    single_trainer (AppState.Bookings s);
  inv_cap :
    ∀ u t, (length (bookingsOf u t (AppState.Bookings s)) ≤ 3)%nat;
  inv_users :
    ∀ k u, AppState.Users s !! k = Some u → in_int64 k = true ∧ User.ID u = k
}.

(** ** The message handler and the update loop of [main] *)

Definition priceText : string :=
  "Прайсы абонементов (тенге):" +:+ nl +:+ nl +:+
  "• Gold — 25 000 ₸ / мес" +:+ nl +:+
  "• Silver — 18 000 ₸ / мес" +:+ nl +:+
  "• Bronze — 12 000 ₸ / мес" +:+ nl +:+
  "• Студенческий — 9 000 ₸ / мес" +:+ nl +:+ nl +:+
  "Нажмите " +:+ dq +:+ "Оплатить" +:+ dq +:+ " для симуляции оплаты.".

(** The fields of [update.Message] the loop reads.  [Msg_IsCommand] is
    the value of the library method [IsCommand()]; [update.Message.From]
    is not nil. *)
Record IncomingMessage := mkIncomingMessage {
  Msg_From_ID : Z;
  Msg_From_FirstName : string;
  Msg_From_LastName : string;
  Msg_From_UserName : string;
  Msg_Chat_ID : Z;
  Msg_Text : string;
  Msg_IsCommand : bool
}.

Record Update := mkUpdate {
  Update_Message : option IncomingMessage;
  Update_CallbackQuery : option CallbackQuery
}.

Section UpdateLoop.
(** [strings.TrimSpace], a function of the standard library. *)
Variable TrimSpace : string → string.
Variable env : Env.

(** The display name passed to [getOrCreateUser]. *)
Definition senderName (m : IncomingMessage) : string :=
  let name := TrimSpace (Msg_From_FirstName m +:+ " " +:+ Msg_From_LastName m) in
  if String.eqb name "" then Msg_From_UserName m else name.

(** The body of [if update.Message != nil]; the result is [true] when
    the branch ends in [continue], which skips the callback part of the
    same update. *)
Definition handleMessage (m : IncomingMessage) : M bool :=
  let userID := Msg_From_ID m in
  let chat := Msg_Chat_ID m in
  _ ← locked (getOrCreateUser userID (senderName m));
  if Msg_IsCommand m || String.eqb (Msg_Text m) "/start" then
    let welcome :=
      "Вас приветствует фитнес зал " +:+ gymName +:+ "!" +:+ nl
      +:+ "Выберите раздел ниже." in
    send env (Message chat welcome mainMenuKeyboard);;
    mret true
  else if String.eqb (Msg_Text m) "Тренеры" then
    u ← user_ptr userID;
    kb ← read (trainersInlineKeyboard (User.HasPaid u));
    send env (Message chat "Наши тренеры (нажмите имя, чтобы узнать подробнее):" kb);;
    mret false
  else if String.eqb (Msg_Text m) "Прайс абонементов" then
    send env (Message chat priceText pricingKeyboard);;
    mret false
  else
    send env (Message chat "Не понял команду. Пожалуйста, выберите пункт меню."
                      mainMenuKeyboard);;
    mret false.

(** One iteration of [for update := range updates]; [now] is the clock
    reading a booking of this iteration takes. *)
Definition handleUpdate (now : Z) (upd : Update) : M unit :=
  skip ← match Update_Message upd with
         | Some m => handleMessage m
         | None => mret false
         end;
  if (skip : bool) then mret ()
  else match Update_CallbackQuery upd with
       | Some cq => handleCallback env now cq
       | None => mret ()
       end.
End UpdateLoop.

(** ** Vocabulary of the further properties *)

(** The first booking of a user in the ledger. *)
Definition firstBookingOf (userID : Z) (bs : list Booking.t) : option Booking.t :=
  head (filter (λ b, Booking.UserID b = userID) bs).

(** The slot labels booked with a trainer, oldest first. *)
Definition bookedSlots (trainerID : Z) (bs : list Booking.t) : list string :=
  Booking.TimeSlot <$> filter (λ b, Booking.Trainer b = trainerID) bs.

(** The button [scheduleKeyboard] builds for a slot. *)
Definition slotButton (trainerID : Z) (slot : string) : Button :=
  mkButton slot ("slot_" +:+ fmt_d trainerID +:+ "_" +:+ slot).

Definition buttons (m : Markup) : list Button :=
  match m with
  | InlineKeyboard rows => concat rows
  | _ => []
  end.

(** [s'] keeps what [s] holds: the ledger is extended at its end, users
    stay with their ID and name and keep an entitlement they have,
    trainers keep their place and profile, and slot lists only lose
    labels. *)
Record keeps (s s' : AppState.t) : Prop := mkKeeps {
  keeps_bookings :
    AppState.Bookings s `prefix_of` AppState.Bookings s';
  keeps_users :
    ∀ k u, AppState.Users s !! k = Some u →
      ∃ u', AppState.Users s' !! k = Some u' ∧
            User.ID u' = User.ID u ∧ User.Name u' = User.Name u ∧
            (User.HasPaid u = true → User.HasPaid u' = true);
  keeps_trainers :
    Forall2 (λ tr tr', profile tr' = profile tr ∧
                       Trainer.Slots tr' `sublist_of` Trainer.Slots tr)
            (AppState.Trainers s) (AppState.Trainers s')
}.

(** A handler step keeps the state, whether it completes or panics. *)
Definition preserving {A} (m : M A) : Prop :=
  ∀ w, keeps (state w) (state (world_of (m w))).






(** * Properties *)

(** ** The loops of [bookSlot] *)

(** The first booking of the scenario of the specification. *)
Example bookSlot_first :
  bookSlot 1700000000 7 1 "08:00" freshState
  = (None,
     AppState.mk ∅
       (<[0%nat := Trainer.with_Slots (Trainer.mk 1 "Айдос Нуртаев" "Силовой тренинг, функциональная подготовка."
      ["МС по пауэрлифтингу"; "Победитель Almaty Open 2022"] defaultSlots) (List.tl defaultSlots)]> defaultTrainers)
       [Booking.mk 7 1 "08:00" 1700000000]).
Proof. reflexivity. Qed.

Lemma trainerIndexFrom_Some i id ts j tr :
  trainerIndexFrom i id ts = Some (j, tr) →
  ∃ l1 l2, ts = l1 ++ tr :: l2 ∧ j = (i + length l1)%nat ∧
           Trainer.ID tr = id ∧ Forall (λ t, Trainer.ID t ≠ id) l1.
Proof.
  revert i. induction ts as [|t ts IH]; intros i; simpl; [done|].
  destruct (Z.eqb_spec (Trainer.ID t) id) as [Heq|Hne].
  - intros [= <- <-]. exists [], ts. simpl. split_and!; auto with lia.
  - intros H. destruct (IH _ H) as (l1 & l2 & -> & -> & Hid & Hl1).
    exists (t :: l1), l2. simpl. split_and!; auto with lia.
Qed.

Lemma trainerIndexFrom_None i id ts :
  trainerIndexFrom i id ts = None ↔ Forall (λ t, Trainer.ID t ≠ id) ts.
Proof.
  revert i. induction ts as [|t ts IH]; intros i; simpl.
  - split; [constructor|done].
  - destruct (Z.eqb_spec (Trainer.ID t) id) as [Heq|Hne].
    + split; [done|]. intros H. by inversion H.
    + rewrite IH. split; [by constructor|]. intros H. by inversion H.
Qed.

Lemma slotIndexFrom_Some i slot slots pos :
  slotIndexFrom i slot slots = Some pos →
  ∃ pre post, slots = pre ++ slot :: post ∧ pos = (i + length pre)%nat ∧ slot ∉ pre.
Proof.
  revert i. induction slots as [|s slots IH]; intros i; simpl; [done|].
  destruct (String.eqb_spec s slot) as [->|Hne].
  - intros [= <-]. exists [], slots. simpl. split_and!; auto with lia.
    apply not_elem_of_nil.
  - intros H. destruct (IH _ H) as (pre & post & -> & -> & Hpre).
    exists (s :: pre), post. simpl. split_and!; auto with lia.
    rewrite elem_of_cons. intros [?|?]; congruence.
Qed.

Lemma slotIndexFrom_None i slot slots :
  slotIndexFrom i slot slots = None ↔ slot ∉ slots.
Proof.
  revert i. induction slots as [|s slots IH]; intros i; simpl.
  - split; [intros _; apply not_elem_of_nil|done].
  - rewrite not_elem_of_cons. destruct (String.eqb_spec s slot) as [->|Hne].
    + split; [done|]. by intros [? _].
    + rewrite IH. split; [intros ?; split; [congruence|done]|by intros [_ ?]].
Qed.

Lemma removeAt_middle pre x post :
  removeAt (length pre) (pre ++ x :: post) = pre ++ post.
Proof.
  unfold removeAt. rewrite take_app_length. f_equal.
  rewrite cons_middle, app_assoc. apply drop_app_length'.
  rewrite length_app. simpl. lia.
Qed.

Lemma bookingsOf_cons u t b bs :
  bookingsOf u t (b :: bs) =
  if decide (Booking.UserID b = u ∧ Booking.Trainer b = t)
  then b :: bookingsOf u t bs else bookingsOf u t bs.
Proof. unfold bookingsOf. by rewrite filter_cons. Qed.

Lemma bookingsOf_app u t bs1 bs2 :
  bookingsOf u t (bs1 ++ bs2) = bookingsOf u t bs1 ++ bookingsOf u t bs2.
Proof. unfold bookingsOf. by rewrite filter_app. Qed.

(** When the scan runs to its end, the counter holds the number of
    bookings of the user with the requested trainer. *)
Lemma scanBookings_count u t bs e c c' :
  scanBookings u t bs e c = Some c' →
  c' = c + Z.of_nat (length (bookingsOf u t bs)).
Proof.
  revert e c. induction bs as [|b bs IH]; intros e c; simpl.
  - intros [= <-]. lia.
  - rewrite bookingsOf_cons.
    destruct (Z.eqb_spec (Booking.UserID b) u) as [Hu|Hu]; simpl.
    + destruct (Z.eqb_spec (Booking.Trainer b) t) as [Ht|Ht].
      * rewrite decide_True by done. intros H%IH. simpl. lia.
      * rewrite decide_False by (intros [_ ?]; done).
        destruct (negb _); [done|]. apply IH.
    + rewrite decide_False by (intros [? _]; done). apply IH.
Qed.

(** A user all of whose bookings are with the requested trainer passes
    the scan. *)
Lemma scanBookings_same u t bs e c :
  (∀ b, b ∈ bs → Booking.UserID b = u → Booking.Trainer b = t) →
  scanBookings u t bs e c = Some (c + Z.of_nat (length (bookingsOf u t bs))).
Proof.
  revert e c. induction bs as [|b bs IH]; intros e c Hall; simpl.
  - f_equal. lia.
  - rewrite bookingsOf_cons.
    assert (∀ b', b' ∈ bs → Booking.UserID b' = u → Booking.Trainer b' = t) as Hall'
      by (intros b' Hb'; apply Hall; by right).
    destruct (Z.eqb_spec (Booking.UserID b) u) as [Hu|Hu]; simpl.
    + assert (Booking.Trainer b = t) as Ht by (apply Hall; [by left|done]).
      rewrite decide_True by done.
      destruct (Z.eqb_spec (Booking.Trainer b) t); [|done].
      rewrite IH by done. f_equal. simpl. lia.
    + rewrite decide_False by (intros [? _]; done). by apply IH.
Qed.

(** A user who has bookings, none of them with the requested trainer,
    is stopped at the first of them. *)
Lemma scanBookings_other u t bs c :
  (∃ b, b ∈ bs ∧ Booking.UserID b = u) →
  (∀ b, b ∈ bs → Booking.UserID b = u → Booking.Trainer b ≠ t) →
  scanBookings u t bs 0 c = None.
Proof.
  revert c. induction bs as [|b bs IH]; intros c [b0 [Hin Hb0]] Hall.
  - by apply elem_of_nil in Hin.
  - simpl. destruct (Z.eqb_spec (Booking.UserID b) u) as [Hu|Hu]; simpl.
    + assert (Booking.Trainer b ≠ t) as Ht by (apply Hall; [by left|done]).
      destruct (Z.eqb_spec (Booking.Trainer b) t); [done|].
      destruct (Z.eqb_spec t (Booking.Trainer b)); [congruence|done].
    + apply IH.
      * apply elem_of_cons in Hin as [->|Hin]; [done|]. by exists b0.
      * intros b' Hb'. apply Hall. by right.
Qed.

(** The bookings of other users leave both loop variables alone. *)
Lemma scanBookings_stranger u t bs e c :
  (∀ b, b ∈ bs → Booking.UserID b ≠ u) →
  scanBookings u t bs e c = Some c.
Proof.
  induction bs as [|b bs IH]; intros Hnone; simpl; [done|].
  destruct (Z.eqb_spec (Booking.UserID b) u) as [Hu|Hu]; simpl.
  - destruct (Hnone b); [by left|done].
  - apply IH. intros b' Hb'. apply Hnone. by right.
Qed.

(** ** Shape of the result of [bookSlot] *)

Lemma bookSlot_error now u t slot s e s' :
  bookSlot now u t slot s = (Some e, s') → s' = s.
Proof.
  unfold bookSlot. repeat case_match; congruence.
Qed.

Lemma bookSlot_ok now u t slot s s' :
  bookSlot now u t slot s = (None, s') →
  ∃ l1 tr l2 pre post c,
    scanBookings u t (AppState.Bookings s) 0 0 = Some c ∧ c < 3 ∧
    AppState.Trainers s = l1 ++ tr :: l2 ∧ Trainer.ID tr = t ∧
    Forall (λ x, Trainer.ID x ≠ t) l1 ∧
    Trainer.Slots tr = pre ++ slot :: post ∧ (slot ∉ pre) ∧
    s' = AppState.mk (AppState.Users s)
           (l1 ++ Trainer.with_Slots tr (pre ++ post) :: l2)
           (AppState.Bookings s ++ [Booking.mk u t slot now]).
Proof.
  unfold bookSlot.
  destruct (scanBookings _ _ _ _ _) as [c|] eqn:Hscan; [|done].
  destruct (Z.leb_spec 3 c) as [|Hc]; [done|].
  destruct (trainerIndexFrom _ _ _) as [[idx tr]|] eqn:Htr; [|done].
  destruct (slotIndexFrom _ _ _) as [pos|] eqn:Hpos; [|done].
  intros [= <-].
  apply trainerIndexFrom_Some in Htr as (l1 & l2 & Hts & -> & Hid & Hl1).
  apply slotIndexFrom_Some in Hpos as (pre & post & Hsl & -> & Hpre).
  exists l1, tr, l2, pre, post, c. split_and!; try done.
  f_equal. rewrite Hts, Hsl. simpl.
  rewrite removeAt_middle.
  rewrite insert_app_r_alt by lia. by rewrite Nat.sub_diag.
Qed.

(** ** The invariant of reachable states *)

Lemma profile_with_Slots tr slots :
  profile (Trainer.with_Slots tr slots) = profile tr.
Proof. done. Qed.

Lemma profiles_IDs ts :
  profile <$> ts = profile <$> defaultTrainers →
  Trainer.ID <$> ts = [1; 2; 3; 4; 5].
Proof.
  intros H.
  assert (Trainer.ID <$> ts = (λ p, p.1.1.1) <$> (profile <$> ts)) as ->.
  { rewrite <- list_fmap_compose. by apply list_fmap_ext. }
  by rewrite H.
Qed.

Lemma profiles_positional ts :
  profile <$> ts = profile <$> defaultTrainers → positional ts.
Proof.
  intros H%profiles_IDs i tr Hi.
  assert ((Trainer.ID <$> ts) !! i = Some (Trainer.ID tr)) as Hid
    by (by rewrite list_lookup_fmap, Hi).
  rewrite H in Hid.
  do 5 (destruct i as [|i]; [by injection Hid as <-|]). done.
Qed.

Lemma profiles_ID_range ts tr :
  profile <$> ts = profile <$> defaultTrainers → tr ∈ ts → 1 ≤ Trainer.ID tr ≤ 5.
Proof.
  intros H%profiles_IDs Htr.
  assert (Trainer.ID tr ∈ [1; 2; 3; 4; 5]) as Hin
    by (rewrite <- H; by apply list_elem_of_fmap_2).
  set_unfold in Hin. lia.
Qed.

Lemma profiles_find ts id :
  profile <$> ts = profile <$> defaultTrainers → 1 ≤ id ≤ 5 →
  ∃ tr, tr ∈ ts ∧ Trainer.ID tr = id.
Proof.
  intros H%profiles_IDs Hid.
  assert (id ∈ Trainer.ID <$> ts) as Hin by (rewrite H; set_unfold; lia).
  apply list_elem_of_fmap in Hin as (tr & -> & Htr). by exists tr.
Qed.

(** Two places of the catalogue never carry the same ID. *)
Lemma profiles_ID_unique l1 tr l2 tr' :
  profile <$> (l1 ++ tr :: l2) = profile <$> defaultTrainers →
  tr' ∈ l1 ++ l2 → Trainer.ID tr' ≠ Trainer.ID tr.
Proof.
  intros H%profiles_IDs Hin Heq.
  assert (NoDup (Trainer.ID <$> l1 ++ tr :: l2)) as Hnd.
  { rewrite H. repeat constructor; set_unfold; lia. }
  rewrite fmap_app, fmap_cons in Hnd.
  apply NoDup_app in Hnd as (_ & Hl1 & Hnd).
  apply NoDup_cons in Hnd as [Hl2 _].
  apply elem_of_app in Hin as [Hin|Hin].
  - apply (Hl1 (Trainer.ID tr)); [rewrite <- Heq; by apply list_elem_of_fmap_2|by left].
  - apply Hl2. rewrite <- Heq. by apply list_elem_of_fmap_2.
Qed.

Lemma defaultSlots_NoDup : NoDup defaultSlots.
Proof. apply (bool_decide_unpack _). by vm_compute. Qed.

Lemma invariant_fresh : invariant freshState.
Proof.
  split; simpl.
  - done.
  - unfold defaultTrainers. by repeat constructor.
  - intros b Hb. by apply elem_of_nil in Hb.
  - intros b tr Hb. by apply elem_of_nil in Hb.
  - intros b1 b2 Hb. by apply elem_of_nil in Hb.
  - intros u t. simpl. lia.
  - intros k u. by rewrite lookup_empty.
Qed.

(** A successful booking implies that every earlier booking of the user
    is with the same trainer, once the single-trainer property holds. *)
Lemma scan_passed_same u t bs c :
  single_trainer bs → scanBookings u t bs 0 0 = Some c →
  ∀ b, b ∈ bs → Booking.UserID b = u → Booking.Trainer b = t.
Proof.
  intros Hsingle Hscan b Hb Hbu.
  destruct (decide (Booking.Trainer b = t)) as [|Hne]; [done|].
  rewrite (scanBookings_other u t bs 0) in Hscan; [done|by exists b|].
  intros b' Hb' Hb'u. rewrite (Hsingle b' b); [done..|congruence].
Qed.

Lemma invariant_bookSlot now u t slot s :
  in_int64 now = true → in_int64 u = true →
  invariant s → invariant (bookSlot now u t slot s).2.
Proof.
  intros Hnow Hu Hinv.
  destruct (bookSlot now u t slot s) as [[e|] s'] eqn:Hb; simpl.
  { by rewrite (bookSlot_error _ _ _ _ _ _ _ Hb). }
  apply bookSlot_ok in Hb
    as (l1 & tr & l2 & pre & post & c & Hscan & Hc & Hts & Hid & Hl1 & Hsl & Hpre & ->).
  destruct Hinv as [Hprof Hslots Hbooked Hexcl Hsingle Hcap Husers].
  rewrite Hts in Hprof, Hslots, Hexcl.
  apply Forall_app in Hslots as [Hs1 Hs2].
  apply Forall_cons in Hs2 as [Hstr Hs2]. simpl in Hstr.
  assert (NoDup (pre ++ slot :: post)) as Hnd.
  { rewrite <- Hsl. eapply sublist_NoDup; [apply defaultSlots_NoDup|exact Hstr]. }
  assert (slot ∉ post) as Hpost.
  { apply NoDup_app in Hnd as (_ & _ & Hnd). by apply NoDup_cons in Hnd as [? _]. }
  pose proof (scan_passed_same _ _ _ _ Hsingle Hscan) as Hsame.
  split; cbn [AppState.Trainers AppState.Bookings AppState.Users].
  - rewrite <- Hprof, !fmap_app, !fmap_cons. by rewrite profile_with_Slots.
  - apply Forall_app. split; [done|]. apply Forall_cons. split; [|done].
    simpl. etrans; [|exact Hstr]. rewrite Hsl.
    apply sublist_app; [done|]. by apply sublist_cons.
  - intros b [Hb| ->%list_elem_of_singleton]%elem_of_app; [by apply Hbooked|].
    simpl. split_and!; try done; rewrite <- Hid;
      apply (profiles_ID_range _ _ Hprof), elem_of_app; right; left.
  - intros b tr' [Hb| ->%list_elem_of_singleton]%elem_of_app Htr' Hidb.
    + apply elem_of_app in Htr' as [Htr'|Htr'].
      { apply Hexcl; [done|apply elem_of_app; by left|done]. }
      apply elem_of_cons in Htr' as [->|Htr'].
      * simpl. intros Hin.
        eapply (Hexcl b tr); [done|apply elem_of_app; right; left|done|].
        rewrite Hsl.
        apply elem_of_app in Hin as [?|?]; apply elem_of_app; [by left|right; by right].
      * apply Hexcl; [done|apply elem_of_app; right; by right|done].
    + simpl in *. apply elem_of_app in Htr' as [Htr'|Htr'].
      { rewrite Forall_forall in Hl1. by destruct (Hl1 tr'). }
      apply elem_of_cons in Htr' as [->|Htr'].
      * simpl. by apply not_elem_of_app.
      * destruct (profiles_ID_unique l1 tr l2 tr' Hprof);
          [apply elem_of_app; by right|congruence].
  - intros b1 b2 [Hb1| ->%list_elem_of_singleton]%elem_of_app
                 [Hb2| ->%list_elem_of_singleton]%elem_of_app; simpl; intros Heq.
    + by apply Hsingle.
    + by apply Hsame.
    + symmetry. by apply Hsame.
    + done.
  - intros u' t'. rewrite bookingsOf_app, length_app.
    rewrite bookingsOf_cons. simpl. case_decide as Hd; simpl.
    + destruct Hd as [<- <-].
      apply scanBookings_count in Hscan. lia.
    + specialize (Hcap u' t'). lia.
  - done.
Qed.

Lemma invariant_getOrCreateUser id name s :
  in_int64 id = true → invariant s → invariant (getOrCreateUser id name s).2.
Proof.
  intros Hid Hinv. unfold getOrCreateUser.
  destruct (AppState.Users s !! id) as [u|] eqn:Hlook; [done|].
  destruct Hinv as [Hprof Hslots Hbooked Hexcl Hsingle Hcap Husers].
  split; simpl; try done.
  intros k u. rewrite lookup_insert. case_decide as Hk.
  - intros [= <-]. by subst.
  - apply Husers.
Qed.

Lemma invariant_grantPayment userID s s' :
  grantPayment userID s = Some s' → invariant s → invariant s'.
Proof.
  unfold grantPayment. intros Hpay Hinv.
  destruct (AppState.Users s !! userID) as [u0|] eqn:Hlook; [|done].
  injection Hpay as <-.
  destruct Hinv as [Hprof Hslots Hbooked Hexcl Hsingle Hcap Husers].
  split; simpl; try done.
  intros k u. rewrite lookup_insert. case_decide as Hk.
  - intros [= <-]. subst. simpl. apply (Husers _ _ Hlook).
  - apply Husers.
Qed.

Lemma reachable_invariant s : reachable s → invariant s.
Proof.
  induction 1 as [|id name s Hid _ IH|userID s s' _ IH Hpay
                  |now u t slot s Hnow Hu Ht _ IH].
  - apply invariant_fresh.
  - by apply invariant_getOrCreateUser.
  - by eapply invariant_grantPayment.
  - by apply invariant_bookSlot.
Qed.

Lemma runBookings_reachable reqs s :
  forallb request_ok reqs = true → reachable s → reachable (runBookings reqs s).
Proof.
  revert s. induction reqs as [|r reqs IH]; intros s Hok Hs; [done|].
  simpl in Hok. apply andb_prop in Hok as [Hr Hok].
  unfold request_ok in Hr.
  apply andb_prop in Hr as [Hr Ht]. apply andb_prop in Hr as [Hn Hu].
  apply IH; [done|]. by apply reach_book.
Qed.

Lemma booked_once_reachable : reachable booked_once.
Proof. apply runBookings_reachable; [done|apply reach_fresh]. Qed.

Lemma booked_thrice_reachable : reachable booked_thrice.
Proof. apply runBookings_reachable; [done|apply reach_fresh]. Qed.

(** ** The booking rules *)

(** C1 — Single-trainer constraint.  In every state reached from the
    seeded state, all bookings of one user carry the same trainer ID;
    and a [bookSlot] call that names a trainer other than the trainer
    of an existing booking of the user returns the different-trainer
    error and leaves the state as it was, so no booking is created. *)
Theorem single_trainer_constraint s :
  reachable s →
  single_trainer (AppState.Bookings s) ∧
  ∀ now userID trainerID slot b,
    b ∈ AppState.Bookings s →
    Booking.UserID b = userID → Booking.Trainer b ≠ trainerID →
    bookSlot now userID trainerID slot s = (Some DifferentTrainerError, s).
Proof.
  intros Hinv%reachable_invariant. split; [apply Hinv|].
  intros now u t slot b Hb Hbu Hbt. unfold bookSlot.
  rewrite scanBookings_other; [done|by exists b|].
  intros b' Hb' Hb'u. rewrite (inv_single _ Hinv b' b); [done..|congruence].
Qed.

Lemma single_trainer_constraint_witness :
  single_trainer (AppState.Bookings booked_once) ∧
  bookSlot 1700000500 7 2 "09:00" booked_once
  = (Some DifferentTrainerError, booked_once).
Proof.
  destruct (single_trainer_constraint booked_once booked_once_reachable) as [H1 H2].
  split; [exact H1|].
  apply (H2 _ _ _ _ (Booking.mk 7 1 "08:00" 1700000000)).
  - vm_compute. left.
  - reflexivity.
  - simpl. lia.
Defined.

(** C2 — Per-trainer cap.  In every state reached from the seeded
    state no user holds more than three bookings with one trainer; and
    a [bookSlot] call by a user who holds three bookings with the
    requested trainer returns the limit error and leaves the whole
    state (users, trainers, bookings) as it was. *)
Theorem per_trainer_cap s :
  reachable s →
  (∀ userID trainerID,
     (length (bookingsOf userID trainerID (AppState.Bookings s)) ≤ 3)%nat) ∧
  ∀ now userID trainerID slot,
    length (bookingsOf userID trainerID (AppState.Bookings s)) = 3%nat →
    bookSlot now userID trainerID slot s = (Some LimitExceededError, s).
Proof.
  intros Hinv%reachable_invariant. split; [apply Hinv|].
  intros now u t slot Hcount. unfold bookSlot.
  rewrite scanBookings_same.
  - rewrite Hcount. done.
  - destruct (bookingsOf u t (AppState.Bookings s)) as [|b0 l] eqn:Hl; [done|].
    assert (b0 ∈ bookingsOf u t (AppState.Bookings s)) as Hb0
      by (rewrite Hl; left).
    apply list_elem_of_filter in Hb0 as [[Hu0 Ht0] Hb0].
    intros b Hb Hbu. rewrite (inv_single _ Hinv b b0); [done..|congruence].
Qed.

Lemma per_trainer_cap_witness :
  (length (bookingsOf 7 1 (AppState.Bookings booked_thrice)) ≤ 3)%nat ∧
  bookSlot 1700000500 7 1 "11:00" booked_thrice
  = (Some LimitExceededError, booked_thrice).
Proof.
  destruct (per_trainer_cap booked_thrice booked_thrice_reachable) as [H1 H2].
  split; [apply H1|]. apply H2. reflexivity.
Defined.

(** The scenario of the specification, call by call: user 7 books
    trainer 1 at 08:00; trainer 2 is then refused, and so is 08:00
    again; after 09:00 and 10:00 the request for 11:00 hits the cap. *)
Example booking_scenario :
  let s1 := (bookSlot 1700000000 7 1 "08:00" freshState).2 in
  let s3 := runBookings [mkRequest 1700000200 7 1 "09:00";
                         mkRequest 1700000300 7 1 "10:00"] s1 in
  (bookSlot 1700000000 7 1 "08:00" freshState).1 = None ∧
  AppState.Bookings s1 = [Booking.mk 7 1 "08:00" 1700000000] ∧
  (Trainer.Slots <$> (snd <$> getTrainerByID 1 s1)) = Some (List.tl defaultSlots) ∧
  bookSlot 1700000100 7 2 "08:00" s1 = (Some DifferentTrainerError, s1) ∧
  bookSlot 1700000100 7 1 "08:00" s1 = (Some SlotUnavailableError, s1) ∧
  length (AppState.Bookings s3) = 3%nat ∧
  bookSlot 1700000400 7 1 "11:00" s3 = (Some LimitExceededError, s3).
Proof. by vm_compute. Qed.

(** C3 — Slot exclusivity.  In every state reached from the seeded
    state, the slot of a booking is absent from the slot list of the
    booked trainer (who is in the catalogue), and a further [bookSlot]
    call for the same trainer and slot never succeeds and leaves the
    state as it was.  The error is the slot error for every caller who
    passes the two earlier checks (all bookings of the caller are with
    this trainer, fewer than three of them); a caller with a booking
    elsewhere gets the different-trainer error, a caller with three
    bookings here the limit error. *)
Theorem slot_exclusivity s b :
  reachable s → b ∈ AppState.Bookings s →
  (∃ tr, tr ∈ AppState.Trainers s ∧ Trainer.ID tr = Booking.Trainer b) ∧
  (∀ tr, tr ∈ AppState.Trainers s → Trainer.ID tr = Booking.Trainer b →
         Booking.TimeSlot b ∉ Trainer.Slots tr) ∧
  ∀ now userID,
    let mine := bookingsOf userID (Booking.Trainer b) (AppState.Bookings s) in
    let elsewhere :=
      ∃ b', b' ∈ AppState.Bookings s ∧ Booking.UserID b' = userID ∧
            Booking.Trainer b' ≠ Booking.Trainer b in
    ∃ e, bookSlot now userID (Booking.Trainer b) (Booking.TimeSlot b) s = (Some e, s) ∧
         (elsewhere → e = DifferentTrainerError) ∧
         (¬ elsewhere → (3 ≤ length mine)%nat → e = LimitExceededError) ∧
         (¬ elsewhere → (length mine < 3)%nat → e = SlotUnavailableError).
Proof.
  intros Hinv%reachable_invariant Hb.
  destruct (inv_booked _ Hinv b Hb) as (Hrange & _ & _).
  split; [by apply profiles_find; [apply Hinv|]|].
  split; [intros tr Htr Hid; by apply (inv_exclusive _ Hinv)|].
  intros now u mine elsewhere. unfold bookSlot.
  assert (¬ elsewhere →
          ∀ b', b' ∈ AppState.Bookings s → Booking.UserID b' = u →
                Booking.Trainer b' = Booking.Trainer b) as Hsame.
  { intros Hnot b' Hb' Hb'u.
    destruct (decide (Booking.Trainer b' = Booking.Trainer b)); [done|].
    destruct Hnot. by exists b'. }
  destruct (scanBookings _ _ _ _ _) as [c|] eqn:Hscan.
  2: { exists DifferentTrainerError. split_and!; [done..| |];
       intros Hnot _; (rewrite scanBookings_same in Hscan; [done|by apply Hsame]). }
  assert (¬ elsewhere) as Hnot.
  { intros (b' & Hb' & Hb'u & Hne). destruct Hne.
    by apply (scan_passed_same _ _ _ _ (inv_single _ Hinv) Hscan). }
  apply scanBookings_count in Hscan. fold mine in Hscan.
  destruct (Z.leb_spec 3 c) as [Hc|Hc].
  { exists LimitExceededError. split_and!; [done|done|done|lia]. }
  destruct (trainerIndexFrom _ _ _) as [[idx tr]|] eqn:Htr.
  2: { apply trainerIndexFrom_None in Htr. rewrite Forall_forall in Htr.
       destruct (profiles_find _ _ (inv_profiles _ Hinv) Hrange) as (tr & Hin & Hid).
       by destruct (Htr tr). }
  apply trainerIndexFrom_Some in Htr as (l1 & l2 & Hts & _ & Hid & _).
  assert (Booking.TimeSlot b ∉ Trainer.Slots tr) as Hfree.
  { apply (inv_exclusive _ Hinv); [done| |done].
    rewrite Hts. apply elem_of_app. right. left. }
  apply (slotIndexFrom_None 0) in Hfree. rewrite Hfree.
  exists SlotUnavailableError. split_and!; [done|done|lia|done].
Qed.

Lemma slot_exclusivity_witness :
  Forall (λ tr, Trainer.ID tr = 1 → "08:00" ∉ Trainer.Slots tr)
         (AppState.Trainers booked_once) ∧
  bookSlot 1700000500 9 1 "08:00" booked_once
  = (Some SlotUnavailableError, booked_once).
Proof.
  assert (Booking.mk 7 1 "08:00" 1700000000 ∈ AppState.Bookings booked_once) as Hb
    by (vm_compute; left).
  destruct (slot_exclusivity booked_once _ booked_once_reachable Hb)
    as (_ & Hfree & Hagain).
  split.
  - apply Forall_forall. intros tr Htr Hid. by apply (Hfree tr Htr Hid).
  - destruct (Hagain 1700000500 9) as (e & Hres & _ & _ & He).
    simpl in Hres. rewrite Hres, He; [done| |vm_compute; lia].
    intros (b' & Hb' & Hb'u & _). vm_compute in Hb'.
    apply list_elem_of_singleton in Hb' as ->. discriminate Hb'u.
Defined.

(** C3, as the specification words it, lets every later call for a booked
    (trainer, slot) pair return the slot error.  After three bookings
    of user 7 with trainer 1, a fourth call for the booked 08:00 slot
    returns the limit error, and user 8, committed to trainer 2,
    gets the different-trainer error for it. *)
Lemma slot_rebooking_counterexample :
  reachable booked_thrice ∧
  Booking.mk 7 1 "08:00" 1700000000 ∈ AppState.Bookings booked_thrice ∧
  bookSlot 1700000500 7 1 "08:00" booked_thrice
  = (Some LimitExceededError, booked_thrice) ∧
  bookSlot 1700000500 8 1 "08:00" booked_thrice
  = (Some DifferentTrainerError, booked_thrice) ∧
  ¬ (∀ now userID,
       bookSlot now userID 1 "08:00" booked_thrice
       = (Some SlotUnavailableError, booked_thrice)).
Proof.
  split_and!.
  - apply booked_thrice_reachable.
  - vm_compute. left.
  - reflexivity.
  - reflexivity.
  - intros H. specialize (H 1700000500 7). discriminate H.
Qed.

(** C7 — No prior bookings.  For a user without any booking, in any
    state, [bookSlot] returns neither the different-trainer nor the
    limit error: its result is decided by the existence of the trainer
    and the availability of the slot alone.  The zero sentinel of
    [existingTrainer] is not read for such a user; and in every state
    reached from the seeded state the IDs of all trainers and of all
    booked trainers are at least 1, so the sentinel is no trainer's ID. *)
Theorem first_booking_unconstrained now userID trainerID slot s :
  (∀ b, b ∈ AppState.Bookings s → Booking.UserID b ≠ userID) →
  (bookSlot now userID trainerID slot s).1 ≠ Some DifferentTrainerError ∧
  (bookSlot now userID trainerID slot s).1 =
    match getTrainerByID trainerID s with
    | None => Some TrainerNotFoundError
    | Some (_, tr) =>
        if bool_decide (slot ∈ Trainer.Slots tr) then None
        else Some SlotUnavailableError
    end ∧
  (reachable s →
   (∀ tr, tr ∈ AppState.Trainers s → 1 ≤ Trainer.ID tr) ∧
   (∀ b, b ∈ AppState.Bookings s → 1 ≤ Booking.Trainer b)).
Proof.
  intros Hnone.
  assert (scanBookings userID trainerID (AppState.Bookings s) 0 0 = Some 0) as Hscan.
  { by apply scanBookings_stranger. }
  assert ((bookSlot now userID trainerID slot s).1 =
          match getTrainerByID trainerID s with
          | None => Some TrainerNotFoundError
          | Some (_, tr) =>
              if bool_decide (slot ∈ Trainer.Slots tr) then None
              else Some SlotUnavailableError
          end) as Hres.
  { unfold bookSlot, getTrainerByID. rewrite Hscan. simpl.
    destruct (trainerIndexFrom _ _ _) as [[idx tr]|]; [|done].
    destruct (slotIndexFrom 0 slot (Trainer.Slots tr)) as [pos|] eqn:Hpos.
    - apply slotIndexFrom_Some in Hpos as (pre & post & Hsl & _ & _).
      rewrite bool_decide_true; [done|].
      rewrite Hsl. apply elem_of_app. right. left.
    - apply slotIndexFrom_None in Hpos. by rewrite bool_decide_false. }
  split_and!.
  - rewrite Hres. repeat case_match; congruence.
  - exact Hres.
  - intros Hinv%reachable_invariant. split.
    + intros tr Htr. by apply (profiles_ID_range _ _ (inv_profiles _ Hinv)) in Htr as [? _].
    + intros b Hb. by destruct (inv_booked _ Hinv b Hb) as ([? _] & _).
Qed.

Lemma first_booking_unconstrained_witness :
  (bookSlot 1700000500 9 2 "12:00" booked_once).1 ≠ Some DifferentTrainerError ∧
  (bookSlot 1700000500 9 2 "12:00" booked_once).1 = None.
Proof.
  assert (∀ b, b ∈ AppState.Bookings booked_once → Booking.UserID b ≠ 9) as Hnone.
  { intros b Hb. vm_compute in Hb. apply list_elem_of_singleton in Hb as ->.
    simpl. lia. }
  destruct (first_booking_unconstrained 1700000500 9 2 "12:00" booked_once Hnone)
    as (H1 & H2 & _).
  split; [exact H1|]. rewrite H2. reflexivity.
Defined.

(** C8 — Slot removal shape.  A successful [bookSlot] acts on the
    first trainer of the catalogue whose ID is the requested one; it
    removes the first occurrence of the requested label from that
    trainer's slot list, keeps the other labels in their order, keeps
    the trainer's ID, name, biography and achievements, and leaves all
    other trainer records and their positions as they were. *)
Theorem slot_removal_shape now userID trainerID slot s s' :
  bookSlot now userID trainerID slot s = (None, s') →
  ∃ before tr after pre post,
    AppState.Trainers s = before ++ tr :: after ∧
    Trainer.ID tr = trainerID ∧
    Forall (λ x, Trainer.ID x ≠ trainerID) before ∧
    Trainer.Slots tr = pre ++ slot :: post ∧
    (slot ∉ pre) ∧
    AppState.Trainers s' =
      before ++
      Trainer.mk (Trainer.ID tr) (Trainer.Name tr) (Trainer.Bio tr)
                 (Trainer.Achievements tr) (pre ++ post)
      :: after.
Proof.
  intros (l1 & tr & l2 & pre & post & c & _ & _ & Hts & Hid & Hl1 & Hsl & Hpre & ->)
    %bookSlot_ok.
  by exists l1, tr, l2, pre, post.
Qed.

Lemma slot_removal_shape_witness :
  ∃ before tr after pre post,
    AppState.Trainers booked_once = before ++ tr :: after ∧
    Trainer.ID tr = 1 ∧
    Forall (λ x, Trainer.ID x ≠ 1) before ∧
    Trainer.Slots tr = pre ++ "10:00" :: post ∧
    ("10:00" ∉ pre) ∧
    AppState.Trainers (bookSlot 1700000500 7 1 "10:00" booked_once).2 =
      before ++
      Trainer.mk (Trainer.ID tr) (Trainer.Name tr) (Trainer.Bio tr)
                 (Trainer.Achievements tr) (pre ++ post)
      :: after.
Proof.
  apply (slot_removal_shape 1700000500 7 1 "10:00" booked_once). reflexivity.
Defined.

(** ** The codec gives back what it was given *)

Lemma parse_int64_fmt_d k : in_int64 k = true → parse_int64 (fmt_d k) = Some k.
Proof.
  intros Hk. unfold parse_int64, fmt_d.
  rewrite NilZero.isi.
  - by rewrite DecimalZ.of_to, Hk.
  - destruct k; simpl; intros [= H]; by apply Unsigned.to_uint_nonnil in H.
  - destruct k; simpl; intros [= H]; by apply Unsigned.to_uint_nonnil in H.
Qed.

Lemma in_int64_small n : 1 ≤ n ≤ 5 → in_int64 n = true.
Proof.
  intros H. unfold in_int64. apply andb_true_intro. split.
  - apply Z.leb_le. lia.
  - apply Z.ltb_lt. lia.
Qed.

Lemma decode_strings l : Decode.strings (Some (Encode.strings l)) = Some l.
Proof. simpl. by apply mapM_fmap_Some. Qed.

Lemma decode_trainer tr :
  in_int64 (Trainer.ID tr) = true →
  Decode.trainer (Encode.trainer tr) = Some tr.
Proof.
  destruct tr as [id name bio ach slots]. simpl. intros Hid.
  unfold Decode.trainer, Encode.trainer. cbn. rewrite Hid. cbn.
  by rewrite !(mapM_fmap_Some _ JStr) by done.
Qed.

Lemma decode_booking b :
  in_int64 (Booking.UserID b) = true → in_int64 (Booking.Trainer b) = true →
  in_int64 (Booking.BookedAt b) = true →
  Decode.booking (Encode.booking b) = Some b.
Proof.
  destruct b as [u t slot at_]. simpl. intros Hu Ht Hat.
  unfold Decode.booking, Encode.booking. cbn. by rewrite Hu, Ht, Hat.
Qed.

Lemma decode_user u :
  in_int64 (User.ID u) = true → Decode.user (Encode.user u) = Some u.
Proof.
  destruct u as [id name paid]. simpl. intros Hid.
  unfold Decode.user, Encode.user. cbn. by rewrite Hid.
Qed.

Lemma foldl_insert_list_to_map (l : list (Z * User.t)) :
  foldl (λ m (kv : Z * User.t), <[kv.1 := kv.2]> m) (∅ : gmap Z User.t) l
  = list_to_map (rev l).
Proof.
  induction l as [|kv l IH] using rev_ind; [done|].
  by rewrite foldl_app, rev_unit, IH.
Qed.

Lemma Permutation_fmap_inv {A B} (f : A → B) (l : list A) (k : list B) :
  k ≡ₚ f <$> l → ∃ l', k = f <$> l' ∧ l ≡ₚ l'.
Proof. intros H. exact (Permutation_map_inv f l H). Qed.

Lemma decode_users (m : gmap Z User.t) :
  (∀ k u, m !! k = Some u → in_int64 k = true ∧ User.ID u = k) →
  Decode.users (Some (Encode.users m)) = Some (Some m).
Proof.
  intros Hm. unfold Encode.users.
  set (enc := λ kv : Z * User.t, (fmt_d kv.1, Encode.user kv.2)).
  destruct (Permutation_fmap_inv enc (map_to_list m) _
              (merge_sort_Permutation Encode.key_le (enc <$> map_to_list m)))
    as (l' & Hl' & Hperm).
  rewrite Hl'. simpl.
  assert (mapM Decode.user_entry (enc <$> l') = Some l') as ->.
  { apply mapM_fmap_Forall_Some, Forall_forall. intros [k u] Hin.
    assert (m !! k = Some u) as Hku.
    { apply elem_of_map_to_list. by rewrite Hperm. }
    destruct (Hm _ _ Hku) as [Hk Hid].
    unfold Decode.user_entry, enc. cbn [fst snd].
    rewrite parse_int64_fmt_d by done. cbn [mbind option_bind].
    rewrite decode_user by (by rewrite Hid). done. }
  simpl. do 2 f_equal. rewrite foldl_insert_list_to_map.
  rewrite <- (list_to_map_to_list m). apply list_to_map_proper.
  - rewrite <- Permutation_rev, <- Hperm. apply NoDup_fst_map_to_list.
  - by rewrite <- Permutation_rev, <- Hperm.
Qed.

Lemma decode_appState s :
  invariant s →
  Decode.appState (Encode.appState s)
  = Some (Decode.mkTmp (Some (AppState.Users s))
                       (AppState.Trainers s) (AppState.Bookings s)).
Proof.
  intros Hinv. destruct s as [us ts bs]. unfold Encode.appState, Decode.appState.
  cbn [AppState.Users AppState.Trainers AppState.Bookings].
  change (Decode.field "users" _) with (Some (Encode.users us)).
  change (Decode.field "trainers" _) with (Some (JArr (Encode.trainer <$> ts))).
  change (Decode.field "bookings" _) with (Some (JArr (Encode.booking <$> bs))).
  rewrite decode_users by apply (inv_users _ Hinv). simpl.
  assert (mapM Decode.trainer (Encode.trainer <$> ts) = Some ts) as ->.
  { apply mapM_fmap_Forall_Some, Forall_forall. intros tr Htr.
    apply decode_trainer, in_int64_small.
    by apply (profiles_ID_range _ _ (inv_profiles _ Hinv)). }
  simpl.
  assert (mapM Decode.booking (Encode.booking <$> bs) = Some bs) as ->; [|done].
  apply mapM_fmap_Forall_Some, Forall_forall. intros b Hb.
  destruct (inv_booked _ Hinv b Hb) as (Ht & Hu & Hat).
  apply decode_booking; [done|by apply in_int64_small|done].
Qed.

(** C4 — Round trip.  Saving a state reached from the seeded state and
    loading the file again, whatever the memory holds at that moment,
    yields the saved state: the same user map, the same trainers with
    their remaining slots in order, the same bookings. *)
Theorem save_load_round_trip env env' w :
  reachable (state w) → write_fails env = false →
  (saveState env w).1 = None ∧
  state (saveState env w).2 = state w ∧
  file (saveState env w).2 = Doc (Encode.appState (state w)) ∧
  ∀ s0,
    (loadState env' (set_state s0 (saveState env w).2)).1 = None ∧
    state (loadState env' (set_state s0 (saveState env w).2)).2 = state w.
Proof.
  intros Hinv%reachable_invariant Hwrite.
  unfold saveState. rewrite Hwrite. cbn [fst snd state file].
  split_and!; [done..|].
  intros s0. unfold loadState, set_state. cbn [file state logs outbox].
  rewrite decode_appState by done.
  cbn [Decode.Users Decode.Trainers Decode.Bookings fst snd state].
  assert (length (AppState.Trainers (state w)) = 5%nat) as ->.
  { rewrite <- (length_fmap profile), (inv_profiles _ Hinv). done. }
  split; [done|]. by destruct (state w).
Qed.

Lemma member_paid_reachable : reachable member_paid.
Proof.
  apply (reach_pay 7 member_joined); [|done].
  apply reach_user; [done|apply reach_fresh].
Qed.

Lemma member_booked_reachable :
  reachable (runBookings [mkRequest 1700000000 7 1 "08:00"] member_paid).
Proof. apply runBookings_reachable; [done|apply member_paid_reachable]. Qed.

Lemma save_load_round_trip_witness :
  let w := world_with (runBookings [mkRequest 1700000000 7 1 "08:00"] member_paid) in
  state (loadState failing_disk (set_state freshState (saveState working_disk w).2)).2
  = state w.
Proof.
  intros w.
  destruct (save_load_round_trip working_disk failing_disk w
              member_booked_reachable eq_refl) as (_ & _ & _ & Hload).
  apply (Hload freshState).
Defined.

(** C5 — Fresh-start seeding.  When [state.json] does not exist,
    [loadState] installs the seeded state (no users, no bookings, the
    five trainers with IDs 1 to 5, each with the thirteen hourly slots
    from 08:00 to 20:00) and calls [saveState] on it at once: when the
    write succeeds the file holds that state and [loadState] returns
    nil, otherwise it returns the write error.  A second load, from the
    file just written or from a missing file again, yields the same
    catalogue. *)
Theorem fresh_start_seeding env w :
  file w = Absent →
  loadState env w = saveState env (set_state freshState w) ∧
  state (loadState env w).2 = freshState ∧
  AppState.Users freshState = ∅ ∧
  AppState.Bookings freshState = [] ∧
  Trainer.ID <$> AppState.Trainers freshState = [1; 2; 3; 4; 5] ∧
  Forall (λ tr, Trainer.Slots tr = hourly <$> seq 8 13) (AppState.Trainers freshState) ∧
  (loadState env w).1 = (if write_fails env then Some WriteError else None) ∧
  (write_fails env = false →
   file (loadState env w).2 = Doc (Encode.appState freshState) ∧
   ∀ env', loadState env' (loadState env w).2 = (None, (loadState env w).2)) ∧
  (∀ env' w', file w' = Absent →
     AppState.Trainers (state (loadState env' w').2)
     = AppState.Trainers (state (loadState env w).2)).
Proof.
  intros Hfile.
  assert (∀ e x, file x = Absent → state (loadState e x).2 = freshState) as Hfresh.
  { intros e x Hx. unfold loadState, saveState. rewrite Hx. by destruct (write_fails e). }
  split_and!.
  - unfold loadState. by rewrite Hfile.
  - by apply Hfresh.
  - done.
  - done.
  - done.
  - unfold freshState, defaultTrainers. cbn [AppState.Trainers]. by repeat constructor.
  - unfold loadState, saveState. rewrite Hfile. by destruct (write_fails env).
  - intros Hwrite. unfold loadState at 1 3 4, saveState. rewrite Hfile, Hwrite.
    cbn [fst snd file state set_state logs outbox]. split; [done|].
    intros env'. unfold loadState. cbn [file state].
    rewrite decode_appState by apply invariant_fresh. done.
  - intros env' w' Hw'. by rewrite !Hfresh.
Qed.

Lemma fresh_start_seeding_witness :
  loadState working_disk (world_with member_paid)
  = (None, mkWorld freshState (Doc (Encode.appState freshState)) [] []).
Proof.
  destruct (fresh_start_seeding working_disk (world_with member_paid) eq_refl)
    as (Hload & _).
  rewrite Hload. reflexivity.
Defined.

(** ** The slot-selection path of the handler *)

Lemma HasPrefix_slot data :
  HasPrefix data "slot_" = true → ∃ rest, data = "slot_" +:+ rest.
Proof.
  unfold HasPrefix. intros H%prefix_correct.
  destruct data as [|c1 [|c2 [|c3 [|c4 [|c5 rest]]]]]; simpl in H; try done.
  injection H as -> -> -> -> ->. by exists rest.
Qed.

Lemma route_slot data : HasPrefix data "slot_" = true → route data = RSlot.
Proof. intros [rest ->]%HasPrefix_slot. by destruct rest; vm_compute. Qed.

Lemma handleCallback_entered env now cq w :
  handleCallback env now cq w =
  match route (Data cq) with
  | RMenu => onMenu env cq
  | RTrainers => onTrainers env cq
  | RTrainer => onTrainer env cq
  | RBook => onBook env cq
  | RSlot => onSlot env now cq
  | RPay => onPay env cq
  | RNone => mret ()
  end (entered cq w).
Proof.
  unfold handleCallback, entered, mbind, M_bind, locked, answerCallback.
  by destruct (getOrCreateUser _ _ _).
Qed.

Lemma getOrCreateUser_entry id name s :
  AppState.Users (getOrCreateUser id name s).2 !! id
  = Some (default (User.mk id name false) (AppState.Users s !! id)).
Proof.
  unfold getOrCreateUser.
  destruct (AppState.Users s !! id) as [u|] eqn:Hu; simpl; [done|].
  by rewrite lookup_insert_eq.
Qed.

Lemma getOrCreateUser_rest id name s :
  AppState.Trainers (getOrCreateUser id name s).2 = AppState.Trainers s ∧
  AppState.Bookings (getOrCreateUser id name s).2 = AppState.Bookings s.
Proof. unfold getOrCreateUser. by destruct (AppState.Users s !! id). Qed.

Lemma user_ptr_entered cq w :
  user_ptr (From_ID cq) (entered cq w)
  = Done (default (User.mk (From_ID cq) (From_FirstName cq) false)
                  (AppState.Users (state w) !! From_ID cq))
         (entered cq w).
Proof.
  unfold user_ptr, mbind, M_bind, read. cbn [entered state].
  by rewrite getOrCreateUser_entry.
Qed.

(** [bookSlot] reads and writes the trainers and the bookings only. *)
Lemma bookSlot_users now userID trainerID slot s users' :
  bookSlot now userID trainerID slot
    (AppState.mk users' (AppState.Trainers s) (AppState.Bookings s))
  = ((bookSlot now userID trainerID slot s).1,
     AppState.mk users'
       (AppState.Trainers (bookSlot now userID trainerID slot s).2)
       (AppState.Bookings (bookSlot now userID trainerID slot s).2)).
Proof.
  unfold bookSlot. cbn [AppState.Users AppState.Trainers AppState.Bookings].
  repeat case_match; try done; simplify_eq; done.
Qed.

(** C6 — Entitlement check location.  [bookSlot] does not read the
    user map: with the same trainers and bookings it returns the same
    error and leaves the same trainers and bookings whatever the users
    (and their [HasPaid] flags) are, and it never changes the user map.
    In the handler, a callback on the slot-selection path from a user
    who has not paid (or is new) completes without reaching [bookSlot]:
    trainers, bookings and the file stay as they were, and the only
    message sent is the request to pay first. *)
Theorem entitlement_checked_by_caller env now cq w :
  (∀ users' userID trainerID slot,
     bookSlot now userID trainerID slot
       (AppState.mk users' (AppState.Trainers (state w)) (AppState.Bookings (state w)))
     = ((bookSlot now userID trainerID slot (state w)).1,
        AppState.mk users'
          (AppState.Trainers (bookSlot now userID trainerID slot (state w)).2)
          (AppState.Bookings (bookSlot now userID trainerID slot (state w)).2)) ∧
     AppState.Users (bookSlot now userID trainerID slot (state w)).2
     = AppState.Users (state w)) ∧
  (HasPrefix (Data cq) "slot_" = true →
   (∀ u, AppState.Users (state w) !! From_ID cq = Some u → User.HasPaid u = false) →
   ∃ w',
     handleCallback env now cq w = Done () w' ∧
     state w' = (getOrCreateUser (From_ID cq) (From_FirstName cq) (state w)).2 ∧
     AppState.Trainers (state w') = AppState.Trainers (state w) ∧
     AppState.Bookings (state w') = AppState.Bookings (state w) ∧
     file w' = file w ∧
     (outbox w' = outbox w ++ [CallbackAnswer (cq_ID cq) ""] ∨
      outbox w' = outbox w ++ [CallbackAnswer (cq_ID cq) "";
                               Message (Message_Chat_ID cq)
                                       "Сначала оплатите абонемент." NoMarkup])).
Proof.
  split.
  { intros users' userID trainerID slot. split; [apply bookSlot_users|].
    unfold bookSlot. repeat case_match; done. }
  intros Hslot Hunpaid.
  rewrite handleCallback_entered, (route_slot _ Hslot). unfold onSlot.
  destruct (getOrCreateUser_rest (From_ID cq) (From_FirstName cq) (state w))
    as [Htrainers Hbookings].
  destruct (SplitN2 _) as [|part0 [|part1 [|? ?]]].
  1, 2, 4: (eexists; split; [reflexivity|]; split_and!; try done; by left).
  unfold mbind at 1, M_bind at 1. rewrite user_ptr_entered.
  assert (User.HasPaid
            (default (User.mk (From_ID cq) (From_FirstName cq) false)
                     (AppState.Users (state w) !! From_ID cq)) = false) as ->.
  { destruct (AppState.Users (state w) !! From_ID cq) as [u|] eqn:Hu; simpl; [|done].
    by apply Hunpaid. }
  cbn [negb]. unfold send, entered. eexists. split; [reflexivity|].
  cbn [state file outbox]. split_and!; try done.
  right. by rewrite <- app_assoc.
Qed.

Lemma entitlement_checked_by_caller_witness :
  ∃ w',
    handleCallback failing_disk 1700000000 booking_click (world_with member_joined)
    = Done () w' ∧
    AppState.Bookings (state w') = [] ∧
    outbox w' = [CallbackAnswer "cb1" "";
                 Message 100 "Сначала оплатите абонемент." NoMarkup].
Proof.
  destruct (entitlement_checked_by_caller failing_disk 1700000000 booking_click
              (world_with member_joined)) as [_ H].
  destruct H as (w' & Hrun & Hstate & _ & Hbookings & _ & Hout).
  - by vm_compute.
  - intros u Hu. vm_compute in Hu. by injection Hu as <-.
  - exists w'. split; [exact Hrun|]. split; [exact Hbookings|].
    clear Hout. vm_compute in Hrun. by injection Hrun as <-.
Defined.

Lemma getOrCreateUser_existing id name s u :
  AppState.Users s !! id = Some u → getOrCreateUser id name s = (u, s).
Proof. unfold getOrCreateUser. by intros ->. Qed.

(** [confirmBooking] sends and saves; it leaves the state alone, and
    writes to the log only when a request to the bot API fails. *)
Lemma confirmBooking_world env cq trainerID slot w :
  let w' := world_of (confirmBooking env cq trainerID slot w) in
  state w' = state w ∧
  file w' = (saveState env w).2.(file) ∧
  ((∀ n, send_error env n = None) → logs w' = logs w).
Proof.
  unfold confirmBooking, mbind, M_bind, saveState_, send, read, deref, panic,
    mret, M_ret, saveState.
  destruct (write_fails env); cbn [fst snd state file logs outbox];
    destruct (getTrainerByID _ _) as [[idx tr]|];
    cbn [fst snd state file logs outbox world_of];
    try destruct (scheduleKeyboard _ _);
    cbn [fst snd state file logs outbox world_of];
    (split_and!; [done|done|intros Hsend; rewrite ?Hsend, ?app_nil_r; done]).
Qed.

(** The run of the handler for a paid user whose [bookSlot] call
    succeeds. *)
Lemma handleCallback_booked env now cq w part0 slot u :
  HasPrefix (Data cq) "slot_" = true →
  SplitN2 (TrimPrefix (Data cq) "slot_") = [part0; slot] →
  AppState.Users (state w) !! From_ID cq = Some u → User.HasPaid u = true →
  (bookSlot now (From_ID cq) (Sscanf_d env part0) slot (state w)).1 = None →
  handleCallback env now cq w
  = confirmBooking env cq (Sscanf_d env part0) slot
      (mkWorld (bookSlot now (From_ID cq) (Sscanf_d env part0) slot (state w)).2
               (file w) (logs w) (outbox w ++ [CallbackAnswer (cq_ID cq) ""])).
Proof.
  intros Hslot Hsplit Hu Hpaid Hok.
  rewrite handleCallback_entered, (route_slot _ Hslot).
  unfold onSlot. rewrite Hsplit.
  unfold mbind at 1, M_bind at 1. rewrite user_ptr_entered, Hu.
  cbn [default from_option id]. rewrite Hpaid. cbn [negb].
  unfold mbind at 1, M_bind at 1, locked, entered. cbn [state].
  rewrite (getOrCreateUser_existing _ _ _ _ Hu). cbn [snd].
  destruct (bookSlot now (From_ID cq) (Sscanf_d env part0) slot (state w))
    as [e s'] eqn:Hb. simpl in Hok. by subst e.
Qed.

(** C9 — Durability gap on save failure.  On the slot-selection path,
    once [bookSlot] has succeeded for a paid user, the handler calls
    [saveState] and drops its error: whatever the write does, the
    state the handler leaves is the state [bookSlot] left, with the new
    booking appended (and the slot removed, see C8).  The failure is
    not logged: the handler adds no line to the log unless a request to
    the bot API fails. *)
Theorem booking_survives_save_failure env now cq w part0 slot u :
  HasPrefix (Data cq) "slot_" = true →
  SplitN2 (TrimPrefix (Data cq) "slot_") = [part0; slot] →
  AppState.Users (state w) !! From_ID cq = Some u → User.HasPaid u = true →
  (bookSlot now (From_ID cq) (Sscanf_d env part0) slot (state w)).1 = None →
  let booked := (bookSlot now (From_ID cq) (Sscanf_d env part0) slot (state w)).2 in
  let w' := world_of (handleCallback env now cq w) in
  state w' = booked ∧
  AppState.Bookings booked
  = AppState.Bookings (state w)
    ++ [Booking.mk (From_ID cq) (Sscanf_d env part0) slot now] ∧
  file w' = (if write_fails env then file_after_failed_write env
             else Doc (Encode.appState booked)) ∧
  ((∀ n, send_error env n = None) → logs w' = logs w).
Proof.
  intros Hslot Hsplit Hu Hpaid Hok booked w'.
  subst w'. rewrite (handleCallback_booked _ _ _ _ _ _ _ Hslot Hsplit Hu Hpaid Hok).
  fold booked.
  match goal with
  | |- context [confirmBooking ?e ?c ?t ?sl ?x] =>
      destruct (confirmBooking_world e c t sl x) as (Hst & Hfile & Hlogs)
  end.
  rewrite Hst, Hfile. unfold saveState.
  cbn [state file logs outbox fst snd].
  split_and!; [done| |by destruct (write_fails env)|done].
  subst booked.
  destruct (bookSlot now (From_ID cq) (Sscanf_d env part0) slot (state w))
    as [e s'] eqn:Hb. simpl in Hok. subst e.
  by apply bookSlot_ok in Hb as (? & ? & ? & ? & ? & ? & _ & _ & _ & _ & _ & _ & _ & ->).
Qed.

Lemma booking_survives_save_failure_witness :
  let w' := world_of (handleCallback failing_disk 1700000000 booking_click
                        (world_with member_paid)) in
  AppState.Bookings (state w') = [Booking.mk 7 1 "08:00" 1700000000] ∧
  file w' = Absent ∧
  logs w' = [].
Proof.
  intros w'.
  destruct (booking_survives_save_failure failing_disk 1700000000 booking_click
              (world_with member_paid) "1" "08:00" (User.mk 7 "Ann" true))
    as (Hstate & Hbookings & Hfile & Hlogs); [by vm_compute..|].
  fold w' in Hstate, Hfile, Hlogs.
  rewrite Hstate, Hbookings, Hfile, Hlogs by done. by split_and!.
Defined.

(** C9, as the specification words it, has the failure of [saveState] logged.
    In this run the write fails, the booking stays in memory, and the
    log is as empty after the handler as it was before. *)
Lemma failed_save_not_logged :
  let w := world_with member_paid in
  let w' := world_of (handleCallback failing_disk 1700000000 booking_click w) in
  (∀ x, (saveState failing_disk x).1 = Some WriteError) ∧
  AppState.Bookings (state w') = [Booking.mk 7 1 "08:00" 1700000000] ∧
  logs w' = logs w ∧
  logs w' = [].
Proof. split; [done|]. by vm_compute. Qed.

(** ** The slot keyboard *)

Lemma trainerIndexFrom_positional ts (i k : nat) tr :
  (∀ (j : nat) t, ts !! j = Some t → Trainer.ID t = Z.of_nat (i + j) + 1) →
  ts !! k = Some tr →
  trainerIndexFrom i (Z.of_nat (i + k) + 1) ts = Some ((i + k)%nat, tr).
Proof.
  revert i k. induction ts as [|t ts IH]; intros i k Hpos Hk; [done|].
  simpl. pose proof (Hpos 0%nat t eq_refl) as Ht.
  destruct k as [|k].
  - injection Hk as ->. rewrite Ht, Z.eqb_refl. by rewrite Nat.add_0_r.
  - destruct (Z.eqb_spec (Trainer.ID t) (Z.of_nat (i + S k) + 1)) as [Heq|_]; [lia|].
    replace (i + S k)%nat with (S i + k)%nat by lia.
    apply IH; [|done]. intros j t' Hj.
    rewrite (Hpos (S j) t' Hj). f_equal. lia.
Qed.

Lemma scheduleSlots_Some trainerID s :
  is_Some (scheduleSlots trainerID s) ↔
  1 ≤ trainerID ≤ Z.of_nat (length (AppState.Trainers s)).
Proof.
  unfold scheduleSlots. destruct (Z.ltb_spec (trainerID - 1) 0) as [Hneg|Hpos].
  - split; [by intros [? ?]|lia].
  - rewrite fmap_is_Some, lookup_lt_is_Some. lia.
Qed.

(** C10 — Positional indexing in [scheduleKeyboard].  The keyboard
    reads [state.Trainers[trainerID-1]] with neither a bounds check nor
    a search by ID.  The access is in bounds exactly when
    1 ≤ trainerID ≤ len(Trainers); outside that range it panics.  When
    moreover the i-th trainer has ID i, the slots read are those of the
    trainer that [getTrainerByID] finds.  This holds for the seed
    catalogue and in every state reached from it, but [loadState] does
    not check it: it accepts a record whose trainers have IDs 7 and 1,
    after which trainer 7 is found by ID while its keyboard panics, and
    the keyboard of trainer 1 shows the slots of trainer 7. *)
Theorem scheduleKeyboard_positional_indexing s trainerID :
  (scheduleKeyboard trainerID s = None ↔ scheduleSlots trainerID s = None) ∧
  (is_Some (scheduleSlots trainerID s) ↔
   1 ≤ trainerID ≤ Z.of_nat (length (AppState.Trainers s))) ∧
  (¬ 1 ≤ trainerID ≤ Z.of_nat (length (AppState.Trainers s)) →
   scheduleSlots trainerID s = None) ∧
  (positional (AppState.Trainers s) →
   1 ≤ trainerID ≤ Z.of_nat (length (AppState.Trainers s)) →
   ∃ idx tr,
     getTrainerByID trainerID s = Some (idx, tr) ∧
     Z.of_nat idx = trainerID - 1 ∧
     scheduleSlots trainerID s = Some (Trainer.Slots tr)) ∧
  positional defaultTrainers ∧
  (reachable s → positional (AppState.Trainers s)) ∧
  (∀ env w, file w = Doc foreign_record →
     (loadState env w).1 = None ∧
     ¬ positional (AppState.Trainers (state (loadState env w).2)) ∧
     (Trainer.Slots <$> (snd <$> getTrainerByID 7 (state (loadState env w).2))
      = Some ["08:00"]) ∧
     scheduleSlots 7 (state (loadState env w).2) = None ∧
     (Trainer.Slots <$> (snd <$> getTrainerByID 1 (state (loadState env w).2))
      = Some ["09:00"]) ∧
     scheduleSlots 1 (state (loadState env w).2) = Some ["08:00"]).
Proof.
  split_and!.
  - unfold scheduleKeyboard. destruct (scheduleSlots trainerID s); simpl; [|done].
    by destruct (scheduleRows _ _ _ _ _).
  - apply scheduleSlots_Some.
  - intros Hout. apply eq_None_not_Some. by rewrite scheduleSlots_Some.
  - intros Hpos Hin.
    destruct (proj2 (scheduleSlots_Some trainerID s) Hin) as [slots Hslots].
    unfold scheduleSlots in Hslots |- *.
    destruct (Z.ltb_spec (trainerID - 1) 0) as [|_]; [lia|].
    destruct (AppState.Trainers s !! Z.to_nat (trainerID - 1)) as [tr|] eqn:Htr; [|done].
    exists (Z.to_nat (trainerID - 1)), tr. split_and!; [|lia|done].
    unfold getTrainerByID.
    replace trainerID with (Z.of_nat (0 + Z.to_nat (trainerID - 1)) + 1) at 1 by lia.
    apply trainerIndexFrom_positional; [|done].
    intros j t Hj. by rewrite (Hpos j t Hj).
  - by apply profiles_positional.
  - intros Hinv%reachable_invariant. apply profiles_positional, Hinv.
  - intros env w Hfile. unfold loadState. rewrite Hfile.
    cbn. split_and!; try done.
    intros Hpos. by specialize (Hpos 0%nat _ eq_refl).
Qed.

Lemma scheduleKeyboard_positional_indexing_witness :
  scheduleSlots 9 booked_once = None ∧
  (∃ idx tr,
     getTrainerByID 2 booked_once = Some (idx, tr) ∧
     Z.of_nat idx = 2 - 1 ∧
     scheduleSlots 2 booked_once = Some (Trainer.Slots tr)) ∧
  positional (AppState.Trainers booked_once) ∧
  scheduleSlots 7 (state (loadState working_disk
                            (mkWorld freshState (Doc foreign_record) [] [])).2) = None.
Proof.
  destruct (scheduleKeyboard_positional_indexing booked_once 9)
    as (_ & _ & Hout & _ & _ & Hreach & Hload).
  destruct (scheduleKeyboard_positional_indexing booked_once 2)
    as (_ & _ & _ & Hin & _).
  split_and!.
  - apply Hout. vm_compute. intros [_ H]. by apply H.
  - apply Hin; [apply Hreach, booked_once_reachable|]. vm_compute. by split; intros [=].
  - apply Hreach, booked_once_reachable.
  - by destruct (Hload working_disk (mkWorld freshState (Doc foreign_record) [] []) eq_refl)
      as (_ & _ & _ & ? & _).
Defined.


(** * Further properties of the code *)

(** ** Directory lookups *)

(** X1 — [getTrainerByID] is a first-match search: a result [(i, tr)]
    is the trainer stored at index [i], it has the requested ID and no
    trainer before it has; the nil result means that no trainer of the
    catalogue has the ID. *)
Theorem getTrainerByID_first_match id s :
  match getTrainerByID id s with
  | Some (i, tr) =>
      AppState.Trainers s !! i = Some tr ∧ Trainer.ID tr = id ∧
      ∀ (j : nat) tr', (j < i)%nat → AppState.Trainers s !! j = Some tr' →
                       Trainer.ID tr' ≠ id
  | None => ∀ tr, tr ∈ AppState.Trainers s → Trainer.ID tr ≠ id
  end.
Proof.
  unfold getTrainerByID.
  destruct (trainerIndexFrom 0 id (AppState.Trainers s)) as [[i tr]|] eqn:Hfind.
  - apply trainerIndexFrom_Some in Hfind as (l1 & l2 & -> & -> & Hid & Hl1).
    simpl. split_and!; [|done|].
    + by rewrite list_lookup_middle.
    + intros j tr' Hj Hlook. rewrite lookup_app_l in Hlook by done.
      rewrite Forall_forall in Hl1. apply Hl1. by eapply list_elem_of_lookup_2.
  - apply trainerIndexFrom_None in Hfind. by rewrite Forall_forall in Hfind.
Qed.

Lemma getTrainerByID_first_match_witness :
  Trainer.ID <$> (snd <$> getTrainerByID 3 booked_once) = Some 3 ∧
  fst <$> getTrainerByID 3 booked_once = Some 2%nat ∧
  getTrainerByID 6 booked_once = None.
Proof.
  pose proof (getTrainerByID_first_match 3 booked_once) as H3.
  destruct (getTrainerByID 3 booked_once) as [[i tr]|] eqn:Hfind; [|discriminate Hfind].
  destruct H3 as (_ & Hid & _). simpl. rewrite Hid.
  split_and!; [done| |done]. by injection Hfind as <- _.
Defined.

(** X2 — [getOrCreateUser] returns the entry stored under the ID after
    the call.  An existing entry is returned as it is and the state is
    not changed (the name passed is ignored); a missing one is created
    with the given name and [HasPaid] false, all other entries staying
    as they were.  A second call, with any name, changes nothing.
    Trainers and bookings are never touched. *)
Theorem getOrCreateUser_get_or_create id name name' s :
  AppState.Users (getOrCreateUser id name s).2 !! id
  = Some (getOrCreateUser id name s).1 ∧
  (∀ u, AppState.Users s !! id = Some u → getOrCreateUser id name s = (u, s)) ∧
  (AppState.Users s !! id = None →
   (getOrCreateUser id name s).1 = User.mk id name false ∧
   ∀ k, k ≠ id →
     AppState.Users (getOrCreateUser id name s).2 !! k = AppState.Users s !! k) ∧
  getOrCreateUser id name' (getOrCreateUser id name s).2
  = getOrCreateUser id name s ∧
  AppState.Trainers (getOrCreateUser id name s).2 = AppState.Trainers s ∧
  AppState.Bookings (getOrCreateUser id name s).2 = AppState.Bookings s.
Proof.
  split_and!.
  - unfold getOrCreateUser.
    destruct (AppState.Users s !! id) as [u|] eqn:Hu; simpl; [done|].
    by rewrite lookup_insert_eq.
  - apply getOrCreateUser_existing.
  - intros Hnone. unfold getOrCreateUser. rewrite Hnone. simpl.
    split; [done|]. intros k Hk. by rewrite lookup_insert_ne.
  - rewrite (getOrCreateUser_existing _ name' _ _ (getOrCreateUser_entry id name s)).
    unfold getOrCreateUser. by destruct (AppState.Users s !! id).
  - apply getOrCreateUser_rest.
  - apply getOrCreateUser_rest.
Qed.

Lemma getOrCreateUser_get_or_create_witness :
  getOrCreateUser 7 "Bob" member_paid = (User.mk 7 "Ann" true, member_paid) ∧
  (getOrCreateUser 8 "Bob" member_paid).1 = User.mk 8 "Bob" false.
Proof.
  destruct (getOrCreateUser_get_or_create 7 "Bob" "" member_paid)
    as (_ & Hold & _).
  destruct (getOrCreateUser_get_or_create 8 "Bob" "" member_paid)
    as (_ & _ & Hnew & _).
  split; [by apply Hold; vm_compute|]. by apply Hnew; vm_compute.
Defined.

(** ** The rules of [bookSlot] in any state *)

(** Once [existingTrainer] holds the requested (non-zero) ID, the scan
    runs to its end. *)
Lemma scanBookings_committed u t bs c :
  t ≠ 0 → is_Some (scanBookings u t bs t c).
Proof.
  intros Ht. revert c. induction bs as [|b bs IH]; intros c; simpl; [done|].
  destruct (negb _); [apply IH|].
  destruct (Z.eqb_spec t 0) as [|_]; [done|].
  destruct (Booking.Trainer b =? t); [apply IH|].
  rewrite Z.eqb_refl. simpl. apply IH.
Qed.

Lemma scanBookings_first u t bs c :
  t ≠ 0 →
  (scanBookings u t bs 0 c = None ↔
   ∃ b, firstBookingOf u bs = Some b ∧ Booking.Trainer b ≠ t).
Proof.
  intros Ht. unfold firstBookingOf.
  revert c. induction bs as [|b bs IH]; intros c; simpl.
  - split; [done|]. by intros (b & Hb & _).
  - rewrite filter_cons.
    destruct (Z.eqb_spec (Booking.UserID b) u) as [Hu|Hu]; simpl.
    + rewrite decide_True by done. simpl.
      destruct (Z.eqb_spec (Booking.Trainer b) t) as [Hbt|Hbt].
      * rewrite Hbt. split.
        -- intros Hnone. destruct (scanBookings_committed u t bs (c + 1) Ht) as [x Hx].
           congruence.
        -- intros (b' & [= <-] & Hne). done.
      * destruct (Z.eqb_spec t (Booking.Trainer b)) as [|_]; [congruence|]. simpl.
        split; [intros _; by exists b|done].
    + rewrite decide_False by done. apply IH.
Qed.

Lemma bookSlot_DifferentTrainerError now u t slot s :
  (bookSlot now u t slot s).1 = Some DifferentTrainerError ↔
  scanBookings u t (AppState.Bookings s) 0 0 = None.
Proof.
  unfold bookSlot. destruct (scanBookings _ _ _ _ _); [|done].
  split; [|done]. repeat case_match; simpl; congruence.
Qed.

(** X3 — The single-trainer rule as [bookSlot] applies it, in any
    state: a request for a trainer with a non-zero ID is refused with
    the different-trainer error exactly when the user has a booking
    and the first one in the ledger names another trainer.  Later
    bookings of the user are not compared. *)
Theorem bookSlot_committed_to_first_booking now userID trainerID slot s :
  trainerID ≠ 0 →
  ((bookSlot now userID trainerID slot s).1 = Some DifferentTrainerError ↔
   ∃ b, firstBookingOf userID (AppState.Bookings s) = Some b ∧
        Booking.Trainer b ≠ trainerID).
Proof.
  intros Ht. rewrite bookSlot_DifferentTrainerError. by apply scanBookings_first.
Qed.

Lemma bookSlot_committed_to_first_booking_witness :
  (bookSlot 1700000500 7 2 "09:00" booked_thrice).1 = Some DifferentTrainerError ∧
  (bookSlot 1700000500 7 1 "09:00"
     (AppState.mk ∅ defaultTrainers
        [Booking.mk 7 1 "08:00" 1700000000; Booking.mk 7 2 "08:00" 1700000100])).1
  ≠ Some DifferentTrainerError.
Proof.
  split.
  - apply (bookSlot_committed_to_first_booking 1700000500 7 2 "09:00" booked_thrice);
      [lia|].
    exists (Booking.mk 7 1 "08:00" 1700000000). split; [by vm_compute|simpl; lia].
  - intros H.
    apply (bookSlot_committed_to_first_booking 1700000500 7 1 "09:00") in H; [|lia].
    destruct H as (b & Hb & Hne). vm_compute in Hb. injection Hb as <-. by apply Hne.
Defined.

(** ** Slots are neither lost nor duplicated *)

Lemma bookedSlots_snoc t bs b :
  bookedSlots t (bs ++ [b]) =
  bookedSlots t bs ++ (if decide (Booking.Trainer b = t) then [Booking.TimeSlot b] else []).
Proof.
  unfold bookedSlots. rewrite filter_app, fmap_app. f_equal.
  rewrite filter_cons, filter_nil. by case_decide.
Qed.

Lemma grantPayment_rest userID s s' :
  grantPayment userID s = Some s' →
  AppState.Trainers s' = AppState.Trainers s ∧
  AppState.Bookings s' = AppState.Bookings s.
Proof.
  unfold grantPayment. destruct (AppState.Users s !! userID); [|done].
  by intros [= <-].
Qed.

Lemma reachable_partition s :
  reachable s →
  ∀ tr, tr ∈ AppState.Trainers s →
    Trainer.Slots tr ++ bookedSlots (Trainer.ID tr) (AppState.Bookings s)
    ≡ₚ defaultSlots.
Proof.
  induction 1 as [|id name s Hid _ IH|userID s s' _ IH Hpay
                  |now u t slot s Hnow Hu Ht Hreach IH].
  - apply Forall_forall. unfold freshState, defaultTrainers, bookedSlots.
    cbn [AppState.Trainers AppState.Bookings].
    repeat constructor; by rewrite app_nil_r.
  - destruct (getOrCreateUser_rest id name s) as [-> ->]. exact IH.
  - destruct (grantPayment_rest _ _ _ Hpay) as [-> ->]. exact IH.
  - pose proof (reachable_invariant _ Hreach) as Hinv.
    destruct (bookSlot now u t slot s) as [[e|] s'] eqn:Hb; simpl.
    { by rewrite (bookSlot_error _ _ _ _ _ _ _ Hb). }
    apply bookSlot_ok in Hb
      as (l1 & tr & l2 & pre & post & c & _ & _ & Hts & Hid & Hl1 & Hsl & _ & ->).
    pose proof (inv_profiles _ Hinv) as Hprof. rewrite Hts in Hprof, IH.
    cbn [AppState.Trainers AppState.Bookings].
    intros tr' Htr'. rewrite bookedSlots_snoc. cbn [Booking.Trainer Booking.TimeSlot].
    apply elem_of_app in Htr' as [Htr'|Htr'].
    { rewrite Forall_forall in Hl1. rewrite decide_False by (symmetry; by apply Hl1).
      rewrite app_nil_r. apply IH, elem_of_app. by left. }
    apply elem_of_cons in Htr' as [->|Htr'].
    + cbn [Trainer.with_Slots Trainer.ID Trainer.Slots].
      rewrite decide_True by done.
      rewrite <- (IH tr) by (apply elem_of_app; right; left).
      rewrite Hsl, (Permutation_app_comm _ [slot]), <- !app_assoc. simpl.
      apply Permutation_app_head. symmetry. apply Permutation_middle.
    + assert (Trainer.ID tr' ≠ Trainer.ID tr) as Hne
        by (apply (profiles_ID_unique l1 tr l2 tr' Hprof), elem_of_app; by right).
      rewrite decide_False by congruence.
      rewrite app_nil_r. apply IH, elem_of_app. right. by right.
Qed.

(** X4 — The slots of a trainer are partitioned into free and booked.
    In every state reached from the seeded state, the free slots of a
    trainer together with the slots booked with that trainer are a
    rearrangement of the thirteen seeded labels: a label is free or
    booked, never both, never twice, and a trainer never has more than
    thirteen bookings. *)
Theorem slots_partitioned s tr :
  reachable s → tr ∈ AppState.Trainers s →
  Trainer.Slots tr ++ bookedSlots (Trainer.ID tr) (AppState.Bookings s)
  ≡ₚ defaultSlots ∧
  NoDup (Trainer.Slots tr ++ bookedSlots (Trainer.ID tr) (AppState.Bookings s)) ∧
  (length (Trainer.Slots tr)
   + length (bookedSlots (Trainer.ID tr) (AppState.Bookings s)) = 13)%nat ∧
  ∀ slot, slot ∈ Trainer.Slots tr ↔
          slot ∈ defaultSlots ∧ slot ∉ bookedSlots (Trainer.ID tr) (AppState.Bookings s).
Proof.
  intros Hreach Htr. pose proof (reachable_partition s Hreach tr Htr) as Hperm.
  assert (NoDup (Trainer.Slots tr
                 ++ bookedSlots (Trainer.ID tr) (AppState.Bookings s))) as Hnd
    by (rewrite Hperm; apply defaultSlots_NoDup).
  split_and!; [done|done| |].
  - rewrite <- length_app, Hperm. done.
  - intros slot. rewrite <- Hperm, elem_of_app.
    apply NoDup_app in Hnd as (_ & Hdisj & _).
    split; [intros H; split; [by left|by apply Hdisj]|by intros [[?|?] ?]].
Qed.

Lemma slots_partitioned_witness :
  (length (Trainer.Slots (Trainer.with_Slots
                            (Trainer.mk 1 "Айдос Нуртаев"
                               "Силовой тренинг, функциональная подготовка."
                               ["МС по пауэрлифтингу"; "Победитель Almaty Open 2022"] [])
                            (drop 3 defaultSlots)))
   + length (bookedSlots 1 (AppState.Bookings booked_thrice)) = 13)%nat.
Proof.
  refine (proj1 (proj2 (proj2 (slots_partitioned booked_thrice _
                                 booked_thrice_reachable _)))).
  vm_compute. left.
Defined.

Lemma reachable_free_slot s tr slot :
  reachable s → tr ∈ AppState.Trainers s →
  slot ∈ Trainer.Slots tr ↔
  slot ∈ defaultSlots ∧ slot ∉ bookedSlots (Trainer.ID tr) (AppState.Bookings s).
Proof.
  intros Hreach Htr. pose proof (reachable_partition s Hreach tr Htr) as Hperm.
  assert (NoDup (Trainer.Slots tr
                 ++ bookedSlots (Trainer.ID tr) (AppState.Bookings s))) as Hnd
    by (rewrite Hperm; apply defaultSlots_NoDup).
  rewrite <- Hperm, elem_of_app.
  apply NoDup_app in Hnd as (_ & Hdisj & _).
  split; [intros H; split; [by left|by apply Hdisj]|by intros [[?|?] ?]].
Qed.

Lemma bookedElsewhere_spec u t bs :
  existsb (λ b, (Booking.UserID b =? u) && negb (Booking.Trainer b =? t)) bs = true ↔
  ∃ b, b ∈ bs ∧ Booking.UserID b = u ∧ Booking.Trainer b ≠ t.
Proof.
  rewrite existsb_exists. split.
  - intros (b & Hin%list_elem_of_In & Hb). exists b.
    apply andb_prop in Hb as [Hu%Z.eqb_eq Ht%negb_true_iff%Z.eqb_neq]. done.
  - intros (b & Hin%list_elem_of_In & Hu & Ht). exists b. split; [done|].
    apply andb_true_intro. split; [by apply Z.eqb_eq|].
    by apply negb_true_iff, Z.eqb_neq.
Qed.

(** X5 — The outcome of [bookSlot] in a state reached from the seeded
    state, read from the ledger alone.  The checks apply in this order:
    a booking of the user with another trainer gives the
    different-trainer error; three bookings with the requested trainer
    give the limit error; an ID outside 1..5 gives the trainer error; a
    label that is not one of the thirteen seeded labels, or that is
    already booked with this trainer, gives the slot error; otherwise
    the call succeeds. *)
Theorem bookSlot_decision_table now userID trainerID slot s :
  reachable s →
  (bookSlot now userID trainerID slot s).1 =
  if existsb (λ b, (Booking.UserID b =? userID) && negb (Booking.Trainer b =? trainerID))
             (AppState.Bookings s)
  then Some DifferentTrainerError
  else if (3 <=? length (bookingsOf userID trainerID (AppState.Bookings s)))%nat
  then Some LimitExceededError
  else if negb ((1 <=? trainerID) && (trainerID <=? 5))
  then Some TrainerNotFoundError
  else if negb (bool_decide (slot ∈ defaultSlots))
          || bool_decide (slot ∈ bookedSlots trainerID (AppState.Bookings s))
  then Some SlotUnavailableError
  else None.
Proof.
  intros Hreach. pose proof (reachable_invariant _ Hreach) as Hinv.
  destruct (existsb _ _) eqn:He.
  { apply bookedElsewhere_spec in He as (b & Hin & Hu & Ht).
    apply bookSlot_DifferentTrainerError, scanBookings_other; [by exists b|].
    intros b' Hb' Hb'u. rewrite (inv_single _ Hinv b' b); [done..|congruence]. }
  assert (∀ b, b ∈ AppState.Bookings s → Booking.UserID b = userID →
               Booking.Trainer b = trainerID) as Hsame.
  { intros b Hb Hbu. destruct (decide (Booking.Trainer b = trainerID)) as [|Hne]; [done|].
    assert (existsb (λ b, (Booking.UserID b =? userID)
                          && negb (Booking.Trainer b =? trainerID))
                    (AppState.Bookings s) = true) as Habs
      by (apply bookedElsewhere_spec; by exists b).
    congruence. }
  unfold bookSlot. rewrite (scanBookings_same _ _ _ _ _ Hsame).
  destruct (Nat.leb_spec 3 (length (bookingsOf userID trainerID (AppState.Bookings s))))
    as [Hc|Hc];
    (destruct (Z.leb_spec 3 (0 + Z.of_nat
                (length (bookingsOf userID trainerID (AppState.Bookings s)))));
     try lia); [done|].
  destruct (trainerIndexFrom 0 trainerID (AppState.Trainers s)) as [[idx tr]|] eqn:Htr.
  - apply trainerIndexFrom_Some in Htr as (l1 & l2 & Hts & _ & Hid & _).
    assert (tr ∈ AppState.Trainers s) as Hin
      by (rewrite Hts; apply elem_of_app; right; left).
    pose proof (profiles_ID_range _ _ (inv_profiles _ Hinv) Hin) as Hrange.
    rewrite Hid in Hrange.
    destruct (Z.leb_spec 1 trainerID); [|lia].
    destruct (Z.leb_spec trainerID 5); [|lia]. cbn [andb negb].
    pose proof (reachable_free_slot s tr slot Hreach Hin) as Hfree.
    rewrite Hid in Hfree.
    destruct (slotIndexFrom 0 slot (Trainer.Slots tr)) as [pos|] eqn:Hpos.
    + apply slotIndexFrom_Some in Hpos as (pre & post & Hsl & _ & _).
      assert (slot ∈ Trainer.Slots tr) as Hslot
        by (rewrite Hsl; apply elem_of_app; right; left).
      apply Hfree in Hslot as [Hd Hb].
      by rewrite (bool_decide_true _ Hd), (bool_decide_false _ Hb).
    + apply slotIndexFrom_None in Hpos. cbn [fst].
      destruct (bool_decide_reflect (slot ∈ defaultSlots)) as [Hd|Hd]; [|done].
      destruct (bool_decide_reflect (slot ∈ bookedSlots trainerID (AppState.Bookings s)))
        as [Hb|Hb]; [done|].
      destruct Hpos. by apply Hfree.
  - apply trainerIndexFrom_None in Htr. rewrite Forall_forall in Htr.
    destruct (Z.leb_spec 1 trainerID); [|done].
    destruct (Z.leb_spec trainerID 5); [|done].
    destruct (profiles_find _ trainerID (inv_profiles _ Hinv)) as (tr & Hin & Hid); [lia|].
    by destruct (Htr tr).
Qed.

Lemma bookSlot_decision_table_witness :
  (bookSlot 1700000500 9 1 "09:00" booked_thrice).1 = Some SlotUnavailableError ∧
  (bookSlot 1700000500 9 6 "09:00" booked_thrice).1 = Some TrainerNotFoundError ∧
  (bookSlot 1700000500 9 1 "11:00" booked_thrice).1 = None.
Proof.
  split_and!.
  - by rewrite (bookSlot_decision_table _ _ _ _ _ booked_thrice_reachable).
  - by rewrite (bookSlot_decision_table _ _ _ _ _ booked_thrice_reachable).
  - by rewrite (bookSlot_decision_table _ _ _ _ _ booked_thrice_reachable).
Defined.

(** ** What no handler ever undoes *)

Lemma keeps_refl s : keeps s s.
Proof.
  split; [done| |].
  - intros k u Hu. by exists u.
  - apply Forall_Forall2_diag, Forall_forall. by intros tr _.
Qed.

Lemma keeps_trans s1 s2 s3 : keeps s1 s2 → keeps s2 s3 → keeps s1 s3.
Proof.
  intros [Hb1 Hu1 Ht1] [Hb2 Hu2 Ht2]. split.
  - by etrans.
  - intros k u Hu. destruct (Hu1 k u Hu) as (u' & Hu' & Hid & Hname & Hpaid).
    destruct (Hu2 k u' Hu') as (u'' & Hu'' & Hid' & Hname' & Hpaid').
    exists u''. split_and!; [done|congruence|congruence|auto].
  - set (R := λ tr tr' : Trainer.t,
               profile tr' = profile tr ∧
               Trainer.Slots tr' `sublist_of` Trainer.Slots tr) in *.
    assert (Transitive R) as HR.
    { intros x y z [Hp1 Hs1] [Hp2 Hs2]. split; [congruence|by etrans]. }
    by etrans.
Qed.

Lemma keeps_bookSlot now u t slot s : keeps s (bookSlot now u t slot s).2.
Proof.
  destruct (bookSlot now u t slot s) as [[e|] s'] eqn:Hb; simpl.
  { rewrite (bookSlot_error _ _ _ _ _ _ _ Hb). apply keeps_refl. }
  apply bookSlot_ok in Hb
    as (l1 & tr & l2 & pre & post & c & _ & _ & Hts & _ & _ & Hsl & _ & ->).
  split; cbn [AppState.Bookings AppState.Users AppState.Trainers].
  - by apply prefix_app_r.
  - intros k u0 Hu0. by exists u0.
  - rewrite Hts. apply Forall2_app.
    { apply Forall_Forall2_diag, Forall_forall. by intros x _. }
    constructor.
    + split; [done|]. simpl. rewrite Hsl.
      apply sublist_app; [done|]. by apply sublist_cons.
    + apply Forall_Forall2_diag, Forall_forall. by intros x _.
Qed.

Lemma keeps_getOrCreateUser id name s : keeps s (getOrCreateUser id name s).2.
Proof.
  unfold getOrCreateUser.
  destruct (AppState.Users s !! id) as [u|] eqn:Hu; simpl; [apply keeps_refl|].
  destruct (keeps_refl s) as [Hb _ Ht]. split; [done| |done].
  intros k u Hk. exists u. simpl. rewrite lookup_insert_ne by congruence. done.
Qed.

Lemma keeps_grantPayment userID s s' :
  grantPayment userID s = Some s' → keeps s s'.
Proof.
  unfold grantPayment. destruct (AppState.Users s !! userID) as [u0|] eqn:Hu0; [|done].
  intros [= <-]. destruct (keeps_refl s) as [Hb _ Ht]. split; [done| |done].
  intros k u Hk. simpl. rewrite lookup_insert. case_decide as Hd.
  - subst k. rewrite Hu0 in Hk. injection Hk as <-. by eexists.
  - by exists u.
Qed.

Lemma preserving_bind {A B} (m : M A) (f : A → M B) :
  preserving m → (∀ a, preserving (f a)) → preserving (m ≫= f).
Proof.
  intros Hm Hf w. unfold mbind, M_bind. specialize (Hm w).
  destruct (m w) as [a w1|w1]; simpl in *; [|done].
  eapply keeps_trans; [exact Hm|apply Hf].
Qed.

Lemma preserving_same {A} (m : M A) :
  (∀ w, state (world_of (m w)) = state w) → preserving m.
Proof. intros H w. rewrite H. apply keeps_refl. Qed.

Lemma preserving_locked {A} (f : AppState.t → A * AppState.t) :
  (∀ s, keeps s (f s).2) → preserving (locked f).
Proof.
  intros Hf w. unfold locked. specialize (Hf (state w)).
  by destruct (f (state w)).
Qed.

Lemma preserving_send env msg : preserving (send env msg).
Proof. by apply preserving_same. Qed.

Lemma preserving_read {A} (f : AppState.t → A) : preserving (read f).
Proof. by apply preserving_same. Qed.

Lemma preserving_deref {A} (o : option A) : preserving (deref o).
Proof. apply preserving_same. by destruct o. Qed.

Lemma preserving_ret {A} (a : A) : preserving (mret a).
Proof. by apply preserving_same. Qed.

Lemma preserving_saveState_ env : preserving (saveState_ env).
Proof.
  apply preserving_same. intros w. unfold saveState_, saveState.
  by destruct (write_fails env).
Qed.

Lemma preserving_answerCallback id text : preserving (answerCallback id text).
Proof. by apply preserving_same. Qed.

Lemma preserving_user_ptr userID : preserving (user_ptr userID).
Proof.
  apply preserving_bind; [apply preserving_read|intros o; apply preserving_deref].
Qed.

Create HintDb preserving.
#[local] Hint Resolve preserving_send preserving_read preserving_deref preserving_ret
  preserving_saveState_ preserving_answerCallback preserving_user_ptr : preserving.

Ltac preserve :=
  repeat first
    [ apply preserving_bind; [|intros ?]
    | solve [auto with preserving]
    | apply preserving_locked; intros ?;
        first [apply keeps_bookSlot|apply keeps_getOrCreateUser]
    | match goal with
      | |- preserving (if ?b then _ else _) => destruct b
      | |- preserving (match ?x with _ => _ end) => destruct x
      end ].

Lemma preserving_onPay env cq : preserving (onPay env cq).
Proof.
  intros w. unfold onPay, mbind, M_bind, read, deref, locked, saveState_, send,
    saveState, mret, M_ret, panic.
  destruct (grantPayment (From_ID cq) (state w)) as [s'|] eqn:Hpay;
    cbn [world_of state fst snd]; [|apply keeps_refl].
  destruct (write_fails env); cbn [world_of state fst snd set_state];
    by apply (keeps_grantPayment (From_ID cq)).
Qed.

Lemma preserving_handleCallback env now cq : preserving (handleCallback env now cq).
Proof.
  unfold handleCallback.
  apply preserving_bind; [preserve|intros _].
  apply preserving_bind; [preserve|intros _].
  destruct (route _).
  - unfold onMenu. preserve.
  - unfold onTrainers. preserve.
  - unfold onTrainer. preserve.
  - unfold onBook. preserve.
  - unfold onSlot, confirmBooking. preserve.
  - apply preserving_onPay.
  - preserve.
Qed.

Lemma preserving_handleMessage TrimSpace env m :
  preserving (handleMessage TrimSpace env m).
Proof. unfold handleMessage. preserve. Qed.

(** X6 — No iteration of the update loop undoes anything, in any state
    and whether it completes or panics: the bookings present before are
    the first bookings afterwards, unchanged and in the same order;
    every user is still present with the same ID and name, and an
    entitlement once granted stays; the trainers keep their positions,
    IDs, names, biographies and achievements, and a slot list only
    loses labels. *)
Theorem update_keeps_state TrimSpace env now upd w :
  keeps (state w) (state (world_of (handleUpdate TrimSpace env now upd w))).
Proof.
  revert w. change (preserving (handleUpdate TrimSpace env now upd)).
  unfold handleUpdate. apply preserving_bind.
  - destruct (Update_Message upd); [apply preserving_handleMessage|preserve].
  - intros [|]; [preserve|].
    destruct (Update_CallbackQuery upd); [apply preserving_handleCallback|preserve].
Qed.

(** ** The update loop on reachable states *)

Lemma reachable_bookSlot now u t slot s :
  in_int64 now = true → in_int64 u = true → reachable s →
  reachable (bookSlot now u t slot s).2.
Proof.
  intros Hnow Hu Hreach.
  destruct (bookSlot now u t slot s) as [[e|] s'] eqn:Hb.
  { by rewrite (bookSlot_error _ _ _ _ _ _ _ Hb). }
  pose proof Hb as Hok.
  apply bookSlot_ok in Hok
    as (l1 & tr & l2 & pre & post & c & _ & _ & Hts & Hid & _).
  assert (in_int64 t = true) as Ht.
  { apply in_int64_small. rewrite <- Hid.
    apply (profiles_ID_range _ _ (inv_profiles _ (reachable_invariant _ Hreach))).
    rewrite Hts. apply elem_of_app. right. left. }
  change (reachable (@None BookError, s').2). rewrite <- Hb. by apply reach_book.
Qed.


(** In a reachable state the keyboard of a trainer found by ID exists. *)
Lemma scheduleKeyboard_found s id i tr :
  reachable s → getTrainerByID id s = Some (i, tr) →
  is_Some (scheduleKeyboard (Trainer.ID tr) s).
Proof.
  intros Hinv%reachable_invariant Hfind.
  apply trainerIndexFrom_Some in Hfind as (l1 & l2 & Hts & _ & _ & _).
  assert (tr ∈ AppState.Trainers s) as Hin
    by (rewrite Hts; apply elem_of_app; right; left).
  pose proof (profiles_ID_range _ _ (inv_profiles _ Hinv) Hin) as Hrange.
  assert (length (AppState.Trainers s) = 5%nat) as Hlen
    by (by rewrite <- (length_fmap profile), (inv_profiles _ Hinv)).
  destruct (proj2 (scheduleSlots_Some (Trainer.ID tr) s)) as [slots Hslots]; [lia|].
  unfold scheduleKeyboard. rewrite Hslots. simpl.
  by destruct (scheduleRows _ _ _ _ _).
Qed.

Lemma bookSlot_trainer_found now u t slot s s' :
  bookSlot now u t slot s = (None, s') →
  ∃ i tr, getTrainerByID t s' = Some (i, tr).
Proof.
  intros (l1 & tr & l2 & pre & post & c & _ & _ & _ & Hid & _ & _ & _ & ->)%bookSlot_ok.
  unfold getTrainerByID. cbn [AppState.Trainers].
  destruct (trainerIndexFrom 0 t _) as [[i tr']|] eqn:Hfind; [by eauto|].
  apply trainerIndexFrom_None in Hfind.
  apply Forall_app in Hfind as [_ Hfind]. apply Forall_cons in Hfind as [Hne _].
  by destruct Hne.
Qed.

Lemma confirmBooking_safe env cq t slot w :
  reachable (state w) → is_Some (getTrainerByID t (state w)) →
  ∃ w', confirmBooking env cq t slot w = Done () w' ∧ state w' = state w.
Proof.
  intros Hreach [[i tr] Hfind].
  assert (∀ f l o, getTrainerByID t (state (mkWorld (state w) f l o)) = Some (i, tr))
    as Hfind' by done.
  unfold confirmBooking, mbind, M_bind, saveState_, send, read, deref,
    mret, M_ret, saveState.
  destruct (write_fails env); cbn [fst snd state file logs outbox];
    rewrite Hfind; cbn [snd state];
    destruct (scheduleKeyboard_found _ _ _ _ Hreach Hfind) as [kb ->];
    by eexists.
Qed.







(** ** The payment and the refusal paths *)





(** X9 — A refused booking.  When [bookSlot] returns an error for a
    paid user on the slot-selection path, the handler completes, sends
    one message carrying the text of that error, leaves the state as
    it was, and does not write the file. *)
Theorem refused_booking_reported env now cq w part0 slot u e :
  HasPrefix (Data cq) "slot_" = true →
  SplitN2 (TrimPrefix (Data cq) "slot_") = [part0; slot] →
  AppState.Users (state w) !! From_ID cq = Some u → User.HasPaid u = true →
  (bookSlot now (From_ID cq) (Sscanf_d env part0) slot (state w)).1 = Some e →
  ∃ w',
    handleCallback env now cq w = Done () w' ∧
    state w' = state w ∧
    file w' = file w ∧
    outbox w' = outbox w ++
                [CallbackAnswer (cq_ID cq) "";
                 Message (Message_Chat_ID cq)
                         ("Не удалось записаться: " +:+ BookError_text e) NoMarkup].
Proof.
  intros Hslot Hsplit Hu Hpaid Herr.
  rewrite handleCallback_entered, (route_slot _ Hslot).
  unfold onSlot. rewrite Hsplit.
  unfold mbind at 1, M_bind at 1. rewrite user_ptr_entered, Hu.
  cbn [default from_option id]. rewrite Hpaid. cbn [negb].
  unfold mbind at 1, M_bind at 1, locked, entered. cbn [state].
  rewrite (getOrCreateUser_existing _ _ _ _ Hu). cbn [snd].
  destruct (bookSlot now (From_ID cq) (Sscanf_d env part0) slot (state w))
    as [e' s'] eqn:Hb. simpl in Herr. subst e'.
  rewrite (bookSlot_error _ _ _ _ _ _ _ Hb).
  unfold send, set_state. cbn [state file logs outbox].
  eexists. split; [reflexivity|]. cbn [state file outbox].
  split_and!; [done|done|]. by rewrite <- app_assoc.
Qed.

Lemma refused_booking_reported_witness :
  ∃ w',
    handleCallback working_disk 1700000500
      (mkCallbackQuery "cb2" 7 "Ann" 100 "slot_2_09:00")
      (world_with (runBookings [mkRequest 1700000000 7 1 "08:00"] member_paid))
    = Done () w' ∧
    file w' = Absent ∧
    outbox w' = [CallbackAnswer "cb2" "";
                 Message 100 ("Не удалось записаться: "
                              +:+ BookError_text DifferentTrainerError) NoMarkup].
Proof.
  destruct (refused_booking_reported working_disk 1700000500
              (mkCallbackQuery "cb2" 7 "Ann" 100 "slot_2_09:00")
              (world_with (runBookings [mkRequest 1700000000 7 1 "08:00"] member_paid))
              "2" "09:00" (User.mk 7 "Ann" true) DifferentTrainerError)
    as (w' & Hrun & _ & Hfile & Hout); [by vm_compute..|].
  exists w'. by split_and!.
Defined.

(** ** The slot keyboard and its buttons *)

Lemma mod4_succ_zero i : ((i + 1) mod 4 = 0 → i mod 4 = 3)%nat.
Proof.
  pose proof (Nat.div_mod_eq i 4). pose proof (Nat.div_mod_eq (i + 1) 4).
  pose proof (Nat.mod_upper_bound i 4). pose proof (Nat.mod_upper_bound (i + 1) 4).
  lia.
Qed.

Lemma mod4_succ_nonzero i : ((i + 1) mod 4 ≠ 0 → (i + 1) mod 4 = i mod 4 + 1)%nat.
Proof.
  pose proof (Nat.div_mod_eq i 4). pose proof (Nat.div_mod_eq (i + 1) 4).
  pose proof (Nat.mod_upper_bound i 4). pose proof (Nat.mod_upper_bound (i + 1) 4).
  lia.
Qed.

(** The loop keeps every button, in order, closes a row when it holds
    four buttons, and never leaves four in the open row. *)
Lemma scheduleRows_spec t slots i row rows :
  length row = (i mod 4)%nat → Forall (λ r, length r = 4%nat) rows →
  concat (scheduleRows t i slots row rows).1 ++ (scheduleRows t i slots row rows).2
  = concat rows ++ row ++ (slotButton t <$> slots) ∧
  Forall (λ r, length r = 4%nat) (scheduleRows t i slots row rows).1 ∧
  length (scheduleRows t i slots row rows).2 = ((i + length slots) mod 4)%nat ∧
  (4 * length (scheduleRows t i slots row rows).1
   + length (scheduleRows t i slots row rows).2
   = 4 * length rows + length row + length slots)%nat.
Proof.
  revert i row rows. induction slots as [|s slots IH]; intros i row rows Hrow Hrows.
  - cbn [scheduleRows fst snd length fmap list_fmap].
    rewrite app_nil_r, Nat.add_0_r. split_and!; [done|done|done|lia].
  - cbn [scheduleRows].
    change (mkButton s ("slot_" +:+ fmt_d t +:+ "_" +:+ s)) with (slotButton t s).
    replace (i + length (s :: slots))%nat with (S i + length slots)%nat
      by (cbn [length]; lia).
    destruct (Nat.eqb_spec ((i + 1) mod 4) 0) as [Hz|Hnz].
    + assert (length (row ++ [slotButton t s]) = 4%nat) as Hfull.
      { rewrite length_app. cbn [length]. rewrite Hrow, (mod4_succ_zero i Hz). done. }
      destruct (IH (S i) [] (rows ++ [row ++ [slotButton t s]])) as (H1 & H2 & H3 & H4).
      * cbn [length]. rewrite <- Nat.add_1_r. by rewrite Hz.
      * apply Forall_app. split; [done|]. by constructor.
      * split_and!; [|done|done|].
        -- rewrite H1, concat_app. cbn [concat fmap list_fmap].
           by rewrite !app_nil_r, <- !app_assoc.
        -- rewrite H4, length_app. cbn [length].
           rewrite length_app in Hfull. cbn [length] in Hfull. lia.
    + destruct (IH (S i) (row ++ [slotButton t s]) rows) as (H1 & H2 & H3 & H4).
      * rewrite length_app. cbn [length].
        rewrite Hrow, <- (Nat.add_1_r i). symmetry. by apply mod4_succ_nonzero.
      * done.
      * split_and!; [|done|done|].
        -- rewrite H1. cbn [fmap list_fmap]. by rewrite <- !app_assoc.
        -- rewrite H4, !length_app. cbn [length]. lia.
Qed.

(** X10 — Layout of the slot keyboard.  When [scheduleKeyboard] does
    not panic it shows one button per slot of the indexed trainer, in
    the order of the slot list, in rows of four: the number of full
    rows is the number of slots divided by four, a last row holds the
    remaining one to three buttons if there are any, and a final row
    holds the back button. *)
Theorem scheduleKeyboard_layout trainerID s kb :
  scheduleKeyboard trainerID s = Some kb →
  ∃ slots full rest,
    scheduleSlots trainerID s = Some slots ∧
    kb = InlineKeyboard (full ++ rest ++ [[mkButton "⬅️ Назад" "trainers"]]) ∧
    concat (full ++ rest) = slotButton trainerID <$> slots ∧
    Forall (λ r, length r = 4%nat) full ∧
    length full = (length slots / 4)%nat ∧
    (if (length slots mod 4 =? 0)%nat then rest = []
     else ∃ r, rest = [r] ∧ length r = (length slots mod 4)%nat).
Proof.
  unfold scheduleKeyboard.
  destruct (scheduleSlots trainerID s) as [slots|]; [|done].
  cbn [mbind option_bind].
  destruct (scheduleRows_spec trainerID slots 0 [] []) as (H1 & H2 & H3 & H4);
    [done|done|].
  destruct (scheduleRows trainerID 0 slots [] []) as [rows row].
  cbn [fst snd length concat app Nat.add] in *.
  intros [= <-].
  assert (length rows = (length slots / 4)%nat) as Hfull.
  { pose proof (Nat.div_mod_eq (length slots) 4). lia. }
  destruct (Nat.ltb_spec 0 (length row)) as [Hpos|Hzero].
  - exists slots, rows, [row]. rewrite <- app_assoc.
    split_and!; [done|done| |done|done|].
    + rewrite concat_app. simpl. by rewrite app_nil_r.
    + destruct (Nat.eqb_spec (length slots mod 4) 0) as [|_]; [lia|].
      by exists row.
  - exists slots, rows, []. destruct row; [|cbn [length] in Hzero; lia].
    rewrite app_nil_r in *. split_and!; [done|done|done|done|done|].
    cbn [length] in H3. by rewrite <- H3.
Qed.

Lemma scheduleKeyboard_layout_witness :
  ∃ slots full rest,
    scheduleSlots 1 booked_once = Some slots ∧
    length slots = 12%nat ∧ length full = 3%nat ∧ rest = [] ∧
    scheduleKeyboard 1 booked_once
    = Some (InlineKeyboard (full ++ rest ++ [[mkButton "⬅️ Назад" "trainers"]])).
Proof.
  destruct (scheduleKeyboard 1 booked_once) as [kb|] eqn:Hkb; [|by vm_compute in Hkb].
  destruct (scheduleKeyboard_layout 1 booked_once kb Hkb)
    as (slots & full & rest & Hslots & -> & _ & _ & Hlen & Hrest).
  vm_compute in Hslots. injection Hslots as <-.
  exists (List.tl defaultSlots), full, rest.
  split_and!; [done|done|exact Hlen|exact Hrest|done].
Defined.

(** ** From a button back to the handler *)

Lemma prefix_append p x : String.prefix p (p +:+ x) = true.
Proof.
  induction p as [|a p IH]; simpl; [by destruct x|].
  by destruct (ascii_dec a a).
Qed.

Lemma substring_full s : String.substring 0 (String.length s) s = s.
Proof. induction s as [|a s IH]; simpl; [done|by rewrite IH]. Qed.

Lemma TrimPrefix_append p x : TrimPrefix (p +:+ x) p = x.
Proof.
  unfold TrimPrefix, HasPrefix. rewrite prefix_append.
  induction p as [|a p IH]; simpl.
  - rewrite Nat.sub_0_r. apply substring_full.
  - exact IH.
Qed.

Lemma cut_underscore_append a b :
  cut_underscore a = None → cut_underscore (a +:+ "_" +:+ b) = Some (a, b).
Proof.
  induction a as [|c a IH]; simpl; [done|].
  destruct (Ascii.eqb c "_"); [done|].
  destruct (cut_underscore a); [by destruct p|]. intros _. by rewrite IH.
Qed.

Lemma cut_underscore_uint d : cut_underscore (NilEmpty.string_of_uint d) = None.
Proof. induction d; simpl; by rewrite ?IHd. Qed.

(** The decimal text of an integer has no underscore. *)
Lemma cut_underscore_fmt_d n : cut_underscore (fmt_d n) = None.
Proof.
  unfold fmt_d. destruct (Z.to_int n) as [d|d]; simpl.
  - destruct d; try done; simpl; by rewrite cut_underscore_uint.
  - destruct d; try done; simpl; by rewrite cut_underscore_uint.
Qed.

Lemma route_slot_append x : route ("slot_" +:+ x) = RSlot.
Proof. by destruct x; vm_compute. Qed.

Lemma route_trainer_append x : route ("trainer_" +:+ x) = RTrainer.
Proof. by destruct x; vm_compute. Qed.

Lemma route_book_append x : route ("book_" +:+ x) = RBook.
Proof. by destruct x; vm_compute. Qed.

(** X11 — What a slot button carries comes back intact.  The callback
    data [scheduleKeyboard] writes on the button of a slot is routed to
    the slot-selection branch, and the handler splits it into the
    decimal text of the trainer ID and the very label of the slot,
    whatever characters the label contains. *)
Theorem slot_button_round_trip trainerID slot :
  route (callback_data (slotButton trainerID slot)) = RSlot ∧
  SplitN2 (TrimPrefix (callback_data (slotButton trainerID slot)) "slot_")
  = [fmt_d trainerID; slot].
Proof.
  unfold slotButton. cbn [callback_data]. split.
  - apply route_slot_append.
  - rewrite TrimPrefix_append. unfold SplitN2.
    by rewrite (cut_underscore_append _ _ (cut_underscore_fmt_d trainerID)).
Qed.

Lemma scheduleKeyboard_buttons trainerID s kb :
  scheduleKeyboard trainerID s = Some kb →
  ∃ slots, scheduleSlots trainerID s = Some slots ∧
           buttons kb = (slotButton trainerID <$> slots)
                        ++ [mkButton "⬅️ Назад" "trainers"].
Proof.
  unfold scheduleKeyboard.
  destruct (scheduleSlots trainerID s) as [slots|]; [|done].
  cbn [mbind option_bind].
  destruct (scheduleRows_spec trainerID slots 0 [] []) as (H1 & _); [done|done|].
  destruct (scheduleRows trainerID 0 slots [] []) as [rows row].
  cbn [fst snd concat app] in H1.
  intros [= <-]. exists slots. split; [done|]. cbn [buttons].
  rewrite concat_app. cbn [concat]. rewrite app_nil_r. f_equal.
  destruct (Nat.ltb_spec 0 (length row)) as [Hpos|Hzero].
  - rewrite concat_app. cbn [concat]. by rewrite app_nil_r.
  - destruct row; [|cbn [length] in Hzero; lia]. by rewrite app_nil_r in H1.
Qed.

Lemma trainersInlineKeyboard_routed hasPaid s :
  Forall (λ b, route (callback_data b) = RTrainer ∨
               (hasPaid = true ∧ route (callback_data b) = RBook) ∨
               route (callback_data b) = RMenu)
         (buttons (trainersInlineKeyboard hasPaid s)).
Proof.
  unfold trainersInlineKeyboard. cbn [buttons]. rewrite concat_app.
  apply Forall_app. split; [|repeat constructor; by right; right].
  apply Forall_concat, Forall_fmap, Forall_forall. intros t _.
  apply Forall_app. split.
  - constructor; [|done]. left. apply route_trainer_append.
  - destruct hasPaid; [|done]. constructor; [|done].
    right. left. split; [done|]. apply route_book_append.
Qed.

(** X12 — Every button leads somewhere.  The callback data of each
    button of the four inline keyboards is routed to a branch of the
    handler: trainer and booking buttons to the trainer and booking
    branches, price buttons to the payment branch, slot buttons to the
    slot branch, the others to the menu or the trainer list.  The
    keyboards built for a user who has not paid hold no booking
    button. *)
Theorem keyboard_buttons_routed s hasPaid tr trainerID kb :
  Forall (λ b, route (callback_data b) = RTrainer ∨
               (hasPaid = true ∧ route (callback_data b) = RBook) ∨
               route (callback_data b) = RMenu)
         (buttons (trainersInlineKeyboard hasPaid s)) ∧
  Forall (λ b, (hasPaid = true ∧ route (callback_data b) = RBook) ∨
               route (callback_data b) = RTrainers)
         (buttons (trainerDetailsKeyboard tr hasPaid)) ∧
  Forall (λ b, route (callback_data b) = RPay ∨ route (callback_data b) = RMenu)
         (buttons pricingKeyboard) ∧
  (scheduleKeyboard trainerID s = Some kb →
   Forall (λ b, route (callback_data b) = RSlot ∨ route (callback_data b) = RTrainers)
          (buttons kb)).
Proof.
  split_and!.
  - apply trainersInlineKeyboard_routed.
  - unfold trainerDetailsKeyboard. cbn [buttons concat]. rewrite app_nil_r.
    apply Forall_app. split; [|repeat constructor; by right].
    destruct hasPaid; [|done]. constructor; [|done].
    left. split; [done|]. apply route_book_append.
  - unfold pricingKeyboard. cbn [buttons concat app].
    repeat constructor; (by left) || by right.
  - intros (slots & _ & ->)%scheduleKeyboard_buttons.
    apply Forall_app. split; [|repeat constructor; by right].
    apply Forall_fmap, Forall_forall. intros slot _. left. apply route_slot_append.
Qed.

Lemma keyboard_buttons_routed_witness :
  Forall (λ b, route (callback_data b) = RSlot ∨ route (callback_data b) = RTrainers)
         (buttons (default NoMarkup (scheduleKeyboard 1 booked_once))).
Proof.
  destruct (scheduleKeyboard 1 booked_once) as [kb|] eqn:Hkb; [|by vm_compute in Hkb].
  by apply (keyboard_buttons_routed booked_once false
              (Trainer.mk 0 "" "" [] []) 1 kb).
Defined.

(** ** The keyboard and the ledger *)

Lemma sublist_filter (P : string → Prop) `{!∀ x, Decision (P x)} (l k : list string) :
  l `sublist_of` k → NoDup k → (∀ x, x ∈ l ↔ x ∈ k ∧ P x) → l = filter P k.
Proof.
  induction 1 as [|x l k Hsub IH|x l k Hsub IH]; intros Hnd Hiff.
  - done.
  - apply NoDup_cons in Hnd as [Hx Hnd].
    assert (P x) as HP by (apply Hiff; left).
    rewrite filter_cons, decide_True by done. f_equal. apply IH; [done|].
    intros y. split.
    + intros Hy. split; [by eapply elem_of_sublist|]. apply Hiff. by right.
    + intros [Hy HPy].
      assert (y ∈ x :: l) as [->|?]%elem_of_cons by (apply Hiff; split; [by right|done]);
        done.
  - apply NoDup_cons in Hnd as [Hx Hnd].
    assert (x ∉ l) as Hxl by (intros ?; apply Hx; by eapply elem_of_sublist).
    rewrite filter_cons, decide_False by (intros HP; apply Hxl, Hiff; split; [left|done]).
    apply IH; [done|]. intros y. split.
    + intros Hy. split; [by eapply elem_of_sublist|]. by apply Hiff.
    + intros [Hy HPy]. apply Hiff. split; [by right|done].
Qed.

Lemma reachable_indexed s t :
  reachable s → 1 ≤ t ≤ 5 →
  ∃ tr, AppState.Trainers s !! Z.to_nat (t - 1) = Some tr ∧ Trainer.ID tr = t ∧
        getTrainerByID t s = Some (Z.to_nat (t - 1), tr).
Proof.
  intros Hinv%reachable_invariant Ht.
  assert (length (AppState.Trainers s) = 5%nat) as Hlen
    by (by rewrite <- (length_fmap profile), (inv_profiles _ Hinv)).
  destruct (lookup_lt_is_Some_2 (AppState.Trainers s) (Z.to_nat (t - 1))) as [tr Htr];
    [lia|].
  pose proof (profiles_positional _ (inv_profiles _ Hinv)) as Hpos.
  exists tr. split_and!; [done|rewrite (Hpos _ _ Htr); lia|].
  unfold getTrainerByID.
  replace t with (Z.of_nat (0 + Z.to_nat (t - 1)) + 1) at 1 by lia.
  apply trainerIndexFrom_positional; [|done].
  intros j x Hj. by rewrite (Hpos j x Hj).
Qed.

Lemma reachable_free_slots s t tr :
  reachable s → tr ∈ AppState.Trainers s → Trainer.ID tr = t →
  Trainer.Slots tr
  = filter (λ l, l ∉ bookedSlots t (AppState.Bookings s)) defaultSlots.
Proof.
  intros Hreach Htr <-. apply sublist_filter.
  - pose proof (inv_slots _ (reachable_invariant _ Hreach)) as Hs.
    rewrite Forall_forall in Hs. by apply Hs.
  - apply defaultSlots_NoDup.
  - intros x. by apply reachable_free_slot.
Qed.

(** X13 — The slot keyboard shows the ledger.  In every state reached
    from the seeded state and for every trainer ID from 1 to 5, the
    keyboard exists and its buttons are, in seed order, the thirteen
    labels without those booked with that trainer, followed by the
    back button. *)
Theorem slot_keyboard_offers_free_slots s trainerID :
  reachable s → 1 ≤ trainerID ≤ 5 →
  ∃ kb,
    scheduleKeyboard trainerID s = Some kb ∧
    buttons kb =
      (slotButton trainerID
         <$> filter (λ l, l ∉ bookedSlots trainerID (AppState.Bookings s)) defaultSlots)
      ++ [mkButton "⬅️ Назад" "trainers"].
Proof.
  intros Hreach Ht.
  destruct (reachable_indexed s trainerID Hreach Ht) as (tr & Htr & Hid & Hfind).
  destruct (scheduleKeyboard_found s trainerID _ tr Hreach Hfind) as [kb Hkb].
  rewrite Hid in Hkb. exists kb. split; [done|].
  destruct (scheduleKeyboard_buttons _ _ _ Hkb) as (slots & Hslots & ->).
  unfold scheduleSlots in Hslots.
  destruct (Z.ltb_spec (trainerID - 1) 0) as [|_]; [lia|].
  rewrite Htr in Hslots. injection Hslots as <-.
  rewrite (reachable_free_slots s trainerID tr Hreach); [done| |done].
  by eapply list_elem_of_lookup_2.
Qed.

Lemma slot_keyboard_offers_free_slots_witness :
  ∃ kb,
    scheduleKeyboard 1 booked_thrice = Some kb ∧
    label <$> buttons kb = drop 3 defaultSlots ++ ["⬅️ Назад"].
Proof.
  destruct (slot_keyboard_offers_free_slots booked_thrice 1 booked_thrice_reachable)
    as (kb & Hkb & Hbuttons); [lia|].
  exists kb. split; [done|]. rewrite Hbuttons. by vm_compute.
Defined.

(** In any state, a request that passes the scan and finds its trainer
    and a free slot succeeds. *)
Lemma bookSlot_succeeds now u t slot s i tr :
  (∀ b, b ∈ AppState.Bookings s → Booking.UserID b = u → Booking.Trainer b = t) →
  (length (bookingsOf u t (AppState.Bookings s)) < 3)%nat →
  getTrainerByID t s = Some (i, tr) → slot ∈ Trainer.Slots tr →
  (bookSlot now u t slot s).1 = None.
Proof.
  intros Hsame Hcount Hfind Hslot. unfold bookSlot, getTrainerByID in *.
  rewrite (scanBookings_same _ _ _ _ _ Hsame).
  destruct (Z.leb_spec 3 (0 + Z.of_nat (length (bookingsOf u t (AppState.Bookings s)))));
    [lia|].
  rewrite Hfind.
  destruct (slotIndexFrom 0 slot (Trainer.Slots tr)) as [pos|] eqn:Hpos; [done|].
  by apply slotIndexFrom_None in Hpos.
Qed.

(** X14 — A click on an offered slot books it.  In a state reached
    from the seeded state, let a paid user who has no booking with
    another trainer and fewer than three with trainer [trainerID] click
    the button of a label that is one of the thirteen and not booked
    with that trainer, and let [fmt.Sscanf] read the decimal text of
    the ID back.  Then the handler completes, and the ledger has grown
    by exactly the booking of that user, trainer and label at the clock
    reading. *)
Theorem offered_slot_is_bookable env now cq w u trainerID slot :
  reachable (state w) → in_int64 now = true → 1 ≤ trainerID ≤ 5 →
  slot ∈ defaultSlots → slot ∉ bookedSlots trainerID (AppState.Bookings (state w)) →
  Data cq = callback_data (slotButton trainerID slot) →
  Sscanf_d env (fmt_d trainerID) = trainerID →
  AppState.Users (state w) !! From_ID cq = Some u → User.HasPaid u = true →
  (∀ b, b ∈ AppState.Bookings (state w) → Booking.UserID b = From_ID cq →
        Booking.Trainer b = trainerID) →
  (length (bookingsOf (From_ID cq) trainerID (AppState.Bookings (state w))) < 3)%nat →
  ∃ w',
    handleCallback env now cq w = Done () w' ∧
    AppState.Bookings (state w')
    = AppState.Bookings (state w) ++ [Booking.mk (From_ID cq) trainerID slot now] ∧
    AppState.Users (state w') = AppState.Users (state w).
Proof.
  intros Hreach Hnow Ht Hseed Hfree Hdata Hscan Hu Hpaid Hsame Hcount.
  assert (in_int64 (From_ID cq) = true) as Hid'
    by (by destruct (inv_users _ (reachable_invariant _ Hreach) _ _ Hu)).
  pose proof (reachable_bookSlot now (From_ID cq) trainerID slot (state w)
                Hnow Hid' Hreach) as Hreach'.
  destruct (reachable_indexed _ _ Hreach Ht) as (tr & Htr & Hid & Hfind).
  assert (tr ∈ AppState.Trainers (state w)) as Hin by (by eapply list_elem_of_lookup_2).
  assert (slot ∈ Trainer.Slots tr) as Hslot.
  { apply (reachable_free_slot _ _ _ Hreach Hin). by rewrite Hid. }
  pose proof (bookSlot_succeeds now (From_ID cq) trainerID slot (state w) _ tr
                Hsame Hcount Hfind Hslot) as Hok.
  assert (HasPrefix (Data cq) "slot_" = true) as Hprefix.
  { rewrite Hdata. unfold slotButton, HasPrefix. cbn [callback_data].
    apply prefix_append. }
  assert (SplitN2 (TrimPrefix (Data cq) "slot_") = [fmt_d trainerID; slot]) as Hsplit.
  { rewrite Hdata. unfold slotButton. cbn [callback_data].
    rewrite TrimPrefix_append. unfold SplitN2.
    by rewrite (cut_underscore_append _ _ (cut_underscore_fmt_d trainerID)). }
  rewrite <- Hscan in Hok.
  rewrite (handleCallback_booked _ _ _ _ _ _ _ Hprefix Hsplit Hu Hpaid Hok).
  rewrite Hscan in *.
  destruct (bookSlot now (From_ID cq) trainerID slot (state w)) as [e s'] eqn:Hb.
  cbn [fst snd] in Hok, Hreach' |- *. subst e.
  destruct (confirmBooking_safe env cq trainerID slot
              (mkWorld s' (file w) (logs w) (outbox w ++ [CallbackAnswer (cq_ID cq) ""])))
    as (w' & Hrun & Hst).
  { done. }
  { cbn [state]. destruct (bookSlot_trainer_found _ _ _ _ _ _ Hb) as (i & tr' & Hf).
    by exists (i, tr'). }
  exists w'. split; [done|]. rewrite Hst. cbn [state].
  by apply bookSlot_ok in Hb as (? & ? & ? & ? & ? & ? & _ & _ & _ & _ & _ & _ & _ & ->).
Qed.

Lemma offered_slot_is_bookable_witness :
  ∃ w',
    handleCallback working_disk 1700000002 booking_click (world_with member_paid)
    = Done () w' ∧
    AppState.Bookings (state w') = [Booking.mk 7 1 "08:00" 1700000002].
Proof.
  destruct (offered_slot_is_bookable working_disk 1700000002 booking_click
              (world_with member_paid) (User.mk 7 "Ann" true) 1 "08:00")
    as (w' & Hrun & Hbookings & _);
    [apply member_paid_reachable|done|lia|by vm_compute; left| |by vm_compute
    |by vm_compute|by vm_compute|done| |by vm_compute; lia|].
  - vm_compute. intros H. by apply elem_of_nil in H.
  - intros b Hb. by apply elem_of_nil in Hb.
  - by exists w'.
Defined.

(** ** Saving and loading any state *)





(** ** The message handler *)



(** ** Browsing and the rules in loaded states *)

(** X17 — Browsing changes nothing.  A callback that is routed neither
    to the slot-selection nor to the payment branch, in any state and
    whether the handler completes or panics, leaves the trainers, the
    bookings and the file as they were; the only change of the state
    is the creation of the caller's user entry. *)
Theorem browsing_changes_nothing env now cq w :
  route (Data cq) ≠ RSlot → route (Data cq) ≠ RPay →
  state (world_of (handleCallback env now cq w))
  = (getOrCreateUser (From_ID cq) (From_FirstName cq) (state w)).2 ∧
  AppState.Trainers (state (world_of (handleCallback env now cq w)))
  = AppState.Trainers (state w) ∧
  AppState.Bookings (state (world_of (handleCallback env now cq w)))
  = AppState.Bookings (state w) ∧
  file (world_of (handleCallback env now cq w)) = file w.
Proof.
  intros Hslot Hpay.
  destruct (getOrCreateUser_rest (From_ID cq) (From_FirstName cq) (state w))
    as [Htrainers Hbookings].
  assert (state (world_of (handleCallback env now cq w)) = state (entered cq w) ∧
          file (world_of (handleCallback env now cq w)) = file (entered cq w))
    as [Hst Hfile].
  { rewrite handleCallback_entered. generalize (entered cq w). intros w1.
    destruct (route (Data cq)); try done.
    - unfold onTrainers, user_ptr, mbind, M_bind, read, deref, send, mret, M_ret, panic.
      by destruct (AppState.Users (state w1) !! From_ID cq).
    - unfold onTrainer, user_ptr, mbind, M_bind, read, deref, send, mret, M_ret, panic.
      destruct (getTrainerByID _ _) as [[i tr]|]; [|done].
      by destruct (AppState.Users (state w1) !! From_ID cq).
    - unfold onBook, user_ptr, mbind, M_bind, read, deref, send, mret, M_ret, panic.
      destruct (AppState.Users (state w1) !! From_ID cq) as [u|]; [|done].
      destruct (negb _); [done|].
      destruct (getTrainerByID _ _) as [[i tr]|]; [|done].
      by destruct (scheduleKeyboard _ _). }
  rewrite Hst, Hfile. by split_and!.
Qed.

Lemma browsing_changes_nothing_witness :
  AppState.Bookings
    (state (world_of (handleCallback failing_disk 1700000500
                        (mkCallbackQuery "cb3" 9 "Eve" 100 "book_1")
                        (world_with booked_thrice))))
  = AppState.Bookings booked_thrice.
Proof.
  by destruct (browsing_changes_nothing failing_disk 1700000500
                 (mkCallbackQuery "cb3" 9 "Eve" 100 "book_1")
                 (world_with booked_thrice)) as (_ & _ & Hbookings & _);
    [by vm_compute..|].
Defined.

(** X18 — The two booking rules maintain themselves.  In any state,
    also one loaded from a record the program did not write: if all
    bookings of each user name one trainer, they still do after a
    [bookSlot] call; and if no user holds more than three bookings
    with a trainer, none does after the call. *)
Theorem booking_rules_inductive now userID trainerID slot s :
  (single_trainer (AppState.Bookings s) →
   single_trainer (AppState.Bookings (bookSlot now userID trainerID slot s).2)) ∧
  ((∀ u t, (length (bookingsOf u t (AppState.Bookings s)) ≤ 3)%nat) →
   ∀ u t, (length (bookingsOf u t
                     (AppState.Bookings (bookSlot now userID trainerID slot s).2))
           ≤ 3)%nat).
Proof.
  destruct (bookSlot now userID trainerID slot s) as [[e|] s'] eqn:Hb; cbn [snd].
  { by rewrite (bookSlot_error _ _ _ _ _ _ _ Hb). }
  apply bookSlot_ok in Hb
    as (l1 & tr & l2 & pre & post & c & Hscan & Hc & _ & _ & _ & _ & _ & ->).
  cbn [AppState.Bookings]. split.
  - intros Hsingle.
    pose proof (scan_passed_same _ _ _ _ Hsingle Hscan) as Hsame.
    intros b1 b2 [Hb1| ->%list_elem_of_singleton]%elem_of_app
                 [Hb2| ->%list_elem_of_singleton]%elem_of_app; simpl; intros Heq.
    + by apply Hsingle.
    + by apply Hsame.
    + symmetry. by apply Hsame.
    + done.
  - intros Hcap u t. rewrite bookingsOf_app, length_app, bookingsOf_cons.
    simpl. case_decide as Hd; simpl.
    + destruct Hd as [<- <-]. apply scanBookings_count in Hscan. lia.
    + specialize (Hcap u t). lia.
Qed.

Lemma booking_rules_inductive_witness :
  single_trainer
    (AppState.Bookings
       (bookSlot 1700000500 8 2 "10:00"
          (AppState.mk ∅ [Trainer.mk 2 "Y" "" [] ["10:00"]]
             [Booking.mk 7 2 "09:00" 1700000000])).2).
Proof.
  apply (booking_rules_inductive 1700000500 8 2 "10:00"
           (AppState.mk ∅ [Trainer.mk 2 "Y" "" [] ["10:00"]]
              [Booking.mk 7 2 "09:00" 1700000000])).
  intros b1 b2 Hb1 Hb2 _. cbn [AppState.Bookings] in *.
  apply list_elem_of_singleton in Hb1 as ->. by apply list_elem_of_singleton in Hb2 as ->.
Defined.
